(** * Study planner: the Planner state-management engine

    A shallow embedding of [study_planner.py] (classes [Task] and [Planner])
    and the properties of its task lifecycle, XP / level / achievement rules,
    querying and persistence.

    Modelling conventions.
    - Python [int] is [Z]; [//] with a positive divisor is [Z.div].
    - Attributes carry the types the source documents: [title], [category],
      [notes] and the ISO stamps are strings, [due_date] is a string
      'YYYY-MM-DD' or [None], [priority] an integer, [id] an integer or
      [None] (before the planner assigns it).
    - A [dict] keeps its insertion order, which [items()] and the stable
      [list.sort] expose: it is an association list with the assignment,
      [pop] and lookup of Python.  [achievements] is a [set]: a [gset].
    - [datetime.datetime.now().isoformat()] is an argument [now] of the
      operation that reads the clock.
    - The data file is part of the state: every operation maps a [World]
      (the planner object and the file) to a [World].  The engine
      operations are modelled on a file that can be written; [load_rw]
      models [load] on a file that may refuse to be written, and [ints_ok]
      names the integers that [json.dump] can write. *)

From Stdlib Require Import ZArith String Ascii List Lia Bool.
From Stdlib Require Import DecimalString DecimalZ Sorted Permutation.
From stdpp Require Import base decidable option list gmap strings.

Local Open Scope string_scope.
Local Open Scope list_scope.
Local Open Scope Z_scope.

(** ** Python exceptions and the outcome of code that may raise *)

Inductive exn := AttributeError | KeyError | TypeError | ValueError.

(** [Ok a]: the code returns [a].  [Raises e]: it raises [e].  [Untyped]: it
    produces a value that the typed attributes above cannot hold (a title
    that is a number, say); the model says nothing about such runs. *)
Inductive outcome (A : Type) :=
| Ok (a : A)
| Raises (e : exn)
| Untyped.
Arguments Ok {A} a.
Arguments Raises {A} e.
Arguments Untyped {A}.

Definition obind {A B} (m : outcome A) (f : A → outcome B) : outcome B :=
  match m with
  | Ok a => f a
  | Raises e => Raises e
  | Untyped => Untyped
  end.

Notation "x ←! m ; k" := (obind m (λ x, k))
  (at level 20, m at level 100, k at level 200, right associativity,
   format "x  ←!  m ;  '/' k").

(** ** Dictionaries with insertion order *)

Module Dict.
Section dict.
Context {K : Type} `{EqDecision K} {V : Type}.

(** [d.get(k)] *)
Fixpoint get (k : K) (d : list (K * V)) : option V :=
  match d with
  | [] => None
  | (k', v) :: r => if decide (k = k') then Some v else get k r
  end.

(** [k in d] *)
Definition mem (k : K) (d : list (K * V)) : bool :=
  match get k d with Some _ => true | None => false end.

(** [d[k] = v]: a present key keeps its place, a new one goes last. *)
Fixpoint set (k : K) (v : V) (d : list (K * V)) : list (K * V) :=
  match d with
  | [] => [(k, v)]
  | (k', v') :: r =>
      if decide (k = k') then (k, v) :: r else (k', v') :: set k v r
  end.

(** [d.pop(k)], the remaining dictionary. *)
Fixpoint pop (k : K) (d : list (K * V)) : list (K * V) :=
  match d with
  | [] => []
  | (k', v) :: r => if decide (k = k') then r else (k', v) :: pop k r
  end.

(** In-place mutation of the object stored under [k]. *)
Fixpoint alter (f : V → V) (k : K) (d : list (K * V)) : list (K * V) :=
  match d with
  | [] => []
  | (k', v) :: r =>
      if decide (k = k') then (k', f v) :: r else (k', v) :: alter f k r
  end.

(** A dict comprehension [{key: value for ...}] over a list of pairs. *)
Definition of_items (l : list (K * V)) : list (K * V) :=
  fold_left (λ acc kv, set kv.1 kv.2 acc) l [].

Definition keys (d : list (K * V)) : list K := d.*1.
End dict.
End Dict.

(** ** The Task record *)

Record Task := mkTask {
  id : option Z;
  title : string;
  category : string;
  due_date : option string;
  priority : Z;
  notes : string;
  created_at : string;
  completed_at : option string;
}.

#[global] Instance Task_eq_dec : EqDecision Task.
Proof. solve_decision. Defined.

(** [Task.__init__]; [int(priority)] is the identity on an integer. *)
Definition new_Task (now : string) (title category : string)
    (due_date : option string) (priority : Z) (notes : string) : Task :=
  {| id := None; title := title; category := category;
     due_date := due_date; priority := priority; notes := notes;
     created_at := now; completed_at := None |}.

Definition set_id (v : option Z) (t : Task) : Task :=
  mkTask v (title t) (category t) (due_date t) (priority t) (notes t)
         (created_at t) (completed_at t).
Definition set_title (v : string) (t : Task) : Task :=
  mkTask (id t) v (category t) (due_date t) (priority t) (notes t)
         (created_at t) (completed_at t).
Definition set_category (v : string) (t : Task) : Task :=
  mkTask (id t) (title t) v (due_date t) (priority t) (notes t)
         (created_at t) (completed_at t).
Definition set_due_date (v : option string) (t : Task) : Task :=
  mkTask (id t) (title t) (category t) v (priority t) (notes t)
         (created_at t) (completed_at t).
Definition set_priority (v : Z) (t : Task) : Task :=
  mkTask (id t) (title t) (category t) (due_date t) v (notes t)
         (created_at t) (completed_at t).
Definition set_notes (v : string) (t : Task) : Task :=
  mkTask (id t) (title t) (category t) (due_date t) (priority t) v
         (created_at t) (completed_at t).
Definition set_created_at (v : string) (t : Task) : Task :=
  mkTask (id t) (title t) (category t) (due_date t) (priority t) (notes t)
         v (completed_at t).
Definition set_completed_at (v : option string) (t : Task) : Task :=
  mkTask (id t) (title t) (category t) (due_date t) (priority t) (notes t)
         (created_at t) v.

(** ** JSON documents, as [json.load] returns them

    An object stands for the [dict] that [json.load] builds, whose keys are
    distinct strings; numbers are the integers the engine writes. *)

#[warnings="-register-all"] Inductive json :=
| JNull
| JBool (b : bool)
| JNum (z : Z)
| JStr (s : string)
| JArr (l : list json)
| JObj (m : list (string * json)).

Definition jopt {A} (f : A → json) (o : option A) : json :=
  match o with Some a => f a | None => JNull end.

(** [str(k)] for an integer, the key [json.dump] writes. *)
Definition py_str (z : Z) : string := NilZero.string_of_int (Z.to_int z).

Definition is_ascii_letter (c : ascii) : bool :=
  let n := N_of_ascii c in
  ((65 <=? n)%N && (n <=? 90)%N) || ((97 <=? n)%N && (n <=? 122)%N).

(** [int(s)] for a string.  The decimal numeral [str] prints is read back; a
    string with an ASCII letter is a [ValueError]; the other spellings [int]
    accepts (blanks, [+], [_], leading zeros) are left out of the model.
    CPython 3.11 and later refuse a numeral of more than 4300 digits with a
    [ValueError]; here it is read like any other, and a statement that
    depends on the difference bounds the numeral (see [int_ok]). *)
Definition py_int (s : string) : outcome Z :=
  match NilZero.int_of_string s with
  | Some d =>
      if String.eqb (py_str (Z.of_int d)) s then Ok (Z.of_int d) else Untyped
  | None =>
      if existsb is_ascii_letter (list_ascii_of_string s)
      then Raises ValueError else Untyped
  end.

(** [Task.to_dict] *)
Definition to_dict (t : Task) : json :=
  JObj [ ("id", jopt JNum (id t));
         ("title", JStr (title t));
         ("category", JStr (category t));
         ("due_date", jopt JStr (due_date t));
         ("priority", JNum (priority t));
         ("notes", JStr (notes t));
         ("created_at", JStr (created_at t));
         ("completed_at", jopt JStr (completed_at t)) ].

(** [d.get(k, dflt)] on a loaded object. *)
Definition jget (k : string) (dflt : json) (m : list (string * json)) : json :=
  default dflt (Dict.get k m).

(** The typed reading of a loaded value. *)
Definition as_str (j : json) : outcome string :=
  match j with JStr s => Ok s | _ => Untyped end.

Definition as_opt_str (j : json) : outcome (option string) :=
  match j with JNull => Ok None | JStr s => Ok (Some s) | _ => Untyped end.

Definition as_opt_int (j : json) : outcome (option Z) :=
  match j with JNull => Ok None | JNum z => Ok (Some z) | _ => Untyped end.

Definition as_int (j : json) : outcome Z :=
  match j with JNum z => Ok z | _ => Untyped end.

(** [int(priority)] in [Task.__init__], on a loaded value. *)
Definition int_of_json (j : json) : outcome Z :=
  match j with
  | JNum z => Ok z
  | JBool b => Ok (if b then 1 else 0)
  | JStr s => py_int s
  | JNull | JArr _ | JObj _ => Raises TypeError
  end.

(** [Task.from_dict].  [d["title"]] raises [KeyError] on a missing key and
    [TypeError] when [d] is not an object; [now] is the clock reading of the
    constructor, kept when the record has no [created_at]. *)
Definition from_dict (now : string) (d : json) : outcome Task :=
  match d with
  | JObj m =>
      title ←! match Dict.get "title" m with
               | Some j => as_str j
               | None => Raises KeyError
               end;
      category ←! as_str (jget "category" (JStr "General") m);
      due_date ←! as_opt_str (jget "due_date" JNull m);
      priority ←! int_of_json (jget "priority" (JNum 3) m);
      notes ←! as_str (jget "notes" (JStr "") m);
      id ←! as_opt_int (jget "id" JNull m);
      created_at ←! as_str (jget "created_at" (JStr now) m);
      completed_at ←! as_opt_str (jget "completed_at" JNull m);
      Ok (mkTask id title category due_date priority notes
                 created_at completed_at)
  | _ => Raises TypeError
  end.

(** ** The Planner *)

Record Planner := mkPlanner {
  tasks : list (Z * Task);
  completed : list (Z * Task);
  next_id : Z;
  xp : Z;
  level : Z;
  achievements : gset string;
}.

Definition XP_PER_TASK : Z := 20.
Definition XP_TO_LEVEL : Z := 100.

(** The data file: absent, present but not readable as JSON ([open] or
    [json.load] raises), or holding a JSON document. *)
Inductive storage :=
| NoFile
| Unreadable
| Stored (doc : json).

Record World := mkWorld {
  self : Planner;
  data_file : storage;
}.

(** The [data] dictionary of [save], as [json.dump] writes it: integer keys
    become their decimal strings, the set becomes a list in some order. *)
Definition dump_tasks (d : list (Z * Task)) : json :=
  JObj (map (λ kt, (py_str kt.1, to_dict kt.2)) d).

Definition dump (p : Planner) : json :=
  JObj [ ("next_id", JNum (next_id p));
         ("xp", JNum (xp p));
         ("level", JNum (level p));
         ("achievements", JArr (map JStr (elements (achievements p))));
         ("tasks", dump_tasks (tasks p));
         ("completed", dump_tasks (completed p)) ].

(** [Planner.save], when the file can be written and [json.dump] can write
    the integers; [load_rw] and [ints_ok] are about the other cases. *)
Definition save (w : World) : World :=
  {| self := self w; data_file := Stored (dump (self w)) |}.

Definition default_Planner : Planner :=
  {| tasks := []; completed := []; next_id := 1; xp := 0; level := 1;
     achievements := ∅ |}.

(** [Planner._create_default_file] *)
Definition _create_default_file (w : World) : World :=
  save {| self := default_Planner; data_file := data_file w |}.

(** [set(data.get("achievements", []))]: a list of strings gives their set;
    an unhashable element (a list or an object), or a value that cannot be
    iterated, is a [TypeError]. *)
Definition is_unhashable (j : json) : bool :=
  match j with JArr _ | JObj _ => true | _ => false end.

Fixpoint strings_of (l : list json) : outcome (list string) :=
  match l with
  | [] => Ok []
  | j :: r => s ←! as_str j; ss ←! strings_of r; Ok (s :: ss)
  end.

Definition load_achievements (j : json) : outcome (gset string) :=
  match j with
  | JArr l =>
      if existsb is_unhashable l then Raises TypeError
      else ss ←! strings_of l; Ok (list_to_set ss)
  | JNull | JBool _ | JNum _ => Raises TypeError
  | JStr _ | JObj _ => Untyped
  end.

(** [{int(k): Task.from_dict(v) for k, v in data.get(key, {}).items()}] *)
Fixpoint load_items (now : string) (l : list (string * json))
    : outcome (list (Z * Task)) :=
  match l with
  | [] => Ok []
  | (k, v) :: r =>
      tid ←! py_int k;
      t ←! from_dict now v;
      rest ←! load_items now r;
      Ok ((tid, t) :: rest)
  end.

Definition load_tasks (now : string) (j : json) : outcome (list (Z * Task)) :=
  match j with
  | JObj m => items ←! load_items now m; Ok (Dict.of_items items)
  | _ => Raises AttributeError
  end.

(** The loop [for tid, t in {**self.tasks, **self.completed}.items()]: for a
    key of both dictionaries the merged dictionary holds the completed task,
    and the pending one keeps the [id] it was read with. *)
Definition restore_ids_pending (cs ts : list (Z * Task)) : list (Z * Task) :=
  map (λ kt, if Dict.mem kt.1 cs then kt else (kt.1, set_id (Some kt.1) kt.2)) ts.

Definition restore_ids (d : list (Z * Task)) : list (Z * Task) :=
  map (λ kt, (kt.1, set_id (Some kt.1) kt.2)) d.

(** The body of the [try] block of [load], after [json.load] returned. *)
Definition load_try (now : string) (data : json) : outcome Planner :=
  match data with
  | JObj m =>
      next_id ←! as_int (jget "next_id" (JNum 1) m);
      xp ←! as_int (jget "xp" (JNum 0) m);
      level ←! as_int (jget "level" (JNum 1) m);
      achievements ←! load_achievements (jget "achievements" (JArr []) m);
      tasks ←! load_tasks now (jget "tasks" (JObj []) m);
      completed ←! load_tasks now (jget "completed" (JObj []) m);
      Ok (mkPlanner (restore_ids_pending completed tasks)
                    (restore_ids completed)
                    next_id xp level achievements)
  | _ => Raises AttributeError
  end.

(** [Planner.load].  [None]: the file holds values outside the typed model.
    An exception of the [try] block is absorbed by the handler. *)
Definition load (now : string) (w : World) : option World :=
  let w1 := match data_file w with
            | NoFile => _create_default_file w
            | _ => w
            end in
  match data_file w1 with
  | NoFile | Unreadable => Some (_create_default_file w1)
  | Stored data =>
      match load_try now data with
      | Ok p => Some {| self := p; data_file := data_file w1 |}
      | Raises _ => Some (_create_default_file w1)
      | Untyped => None
      end
  end.

(** [Planner.__init__] *)
Definition new_Planner (now : string) (file : storage) : option World :=
  load now {| self := default_Planner; data_file := file |}.

(** ** Loading when the file may refuse to be written

    [save] opens the data file for writing, and [open] raises [OSError]
    when the file cannot be written (it is a directory, or the permissions
    forbid it).  Neither call of [_create_default_file] in [load] is
    guarded: the one before the [try] block, and the one inside the
    [except] handler, whose exception no handler catches.  [writable] says
    whether [open(DATA_FILE, "w")] succeeds. *)

Inductive load_result :=
| LoadReturns (w : World)
| LoadRaisesOSError
| LoadOutOfModel.

(** [Planner._create_default_file]; [None]: the [OSError] of [save]. *)
Definition _create_default_file_rw (writable : bool) (w : World) : option World :=
  if writable then Some (_create_default_file w) else None.

(** [Planner.load] *)
Definition load_rw (writable : bool) (now : string) (w : World) : load_result :=
  let recover w1 :=
    match _create_default_file_rw writable w1 with
    | Some w2 => LoadReturns w2
    | None => LoadRaisesOSError
    end in
  match (match data_file w with
         | NoFile => _create_default_file_rw writable w
         | _ => Some w
         end) with
  | None => LoadRaisesOSError
  | Some w1 =>
      match data_file w1 with
      | NoFile | Unreadable => recover w1
      | Stored data =>
          match load_try now data with
          | Ok p => LoadReturns {| self := p; data_file := data_file w1 |}
          | Raises _ => recover w1
          | Untyped => LoadOutOfModel
          end
      end
  end.

(** ** Sorting, as [list.sort(key=...)] does

    [list.sort] computes the key of every element first (an exception of
    the key function leaves the call), then sorts stably.  A stable sort has
    one result; it is computed here by insertion. *)

Section sorting.
Context {A K : Type} (leb : K → K → bool).

Fixpoint insert_sorted (x : K * A) (l : list (K * A)) : list (K * A) :=
  match l with
  | [] => [x]
  | y :: r => if leb x.1 y.1 then x :: y :: r else y :: insert_sorted x r
  end.

Definition stable_sort (l : list (K * A)) : list (K * A) :=
  foldr insert_sorted [] l.

Fixpoint decorate (key : A → outcome K) (l : list A) : outcome (list (K * A)) :=
  match l with
  | [] => Ok []
  | x :: r => k ←! key x; kr ←! decorate key r; Ok ((k, x) :: kr)
  end.

Definition list_sort (key : A → outcome K) (l : list A) : outcome (list A) :=
  kl ←! decorate key l; Ok ((stable_sort kl).*2).
End sorting.

(** ** Dates

    A [datetime] is represented by the integer [yyyymmdd * 10^11 + us], [us]
    the microseconds since midnight: the order of these integers is the
    order of the datetimes. *)

Definition datetime_of (y m d us : Z) : Z :=
  (y * 10000 + m * 100 + d) * 100000000000 + us.

(** [datetime.datetime.max] = 9999-12-31T23:59:59.999999 *)
Definition datetime_max : Z := datetime_of 9999 12 31 86399999999.

Definition digit (c : ascii) : option Z :=
  let n := N_of_ascii c in
  if ((48 <=? n)%N && (n <=? 57)%N)%bool then Some (Z.of_N n - 48) else None.

Definition is_leap (y : Z) : bool :=
  (y mod 4 =? 0) && (negb (y mod 100 =? 0) || (y mod 400 =? 0)).

Definition days_in_month (y m : Z) : Z :=
  if m =? 2 then (if is_leap y then 29 else 28)
  else if (m =? 4) || (m =? 6) || (m =? 9) || (m =? 11) then 30
  else 31.

Definition valid_date (y m d : Z) : bool :=
  (1 <=? y) && (y <=? 9999) && (1 <=? m) && (m <=? 12) &&
  (1 <=? d) && (d <=? days_in_month y m).

Definition has_digit (s : string) : bool :=
  existsb (λ c, bool_decide (is_Some (digit c))) (list_ascii_of_string s).

(** The fields of a string of the form 'YYYY-MM-DD'. *)
Definition parse_date (s : string) : option (Z * Z * Z) :=
  match list_ascii_of_string s with
  | [y1; y2; y3; y4; "-"%char; m1; m2; "-"%char; d1; d2] =>
      match digit y1, digit y2, digit y3, digit y4,
            digit m1, digit m2, digit d1, digit d2 with
      | Some a, Some b, Some c, Some e, Some f, Some g, Some h, Some i =>
          Some (a * 1000 + b * 100 + c * 10 + e, f * 10 + g, h * 10 + i)
      | _, _, _, _, _, _, _, _ => None
      end
  | _ => None
  end.

(** [datetime.datetime.fromisoformat] on a due date.  The documented form
    'YYYY-MM-DD' gives midnight of a valid calendar date and a [ValueError]
    for an invalid one; a string without any digit is a [ValueError]; other
    strings (a time part, the further ISO forms of recent Pythons) are left
    out of the model. *)
Definition fromisoformat (s : string) : outcome Z :=
  match parse_date s with
  | Some (y, m, d) =>
      if valid_date y m d then Ok (datetime_of y m d 0)
      else Raises ValueError
  | None => if has_digit s then Untyped else Raises ValueError
  end.

(** ** Text

    Strings are byte strings: a Python [str] is represented by its UTF-8
    encoding.  [str.lower] is modelled on two kinds of text: ASCII text,
    where it maps A-Z to a-z character by character, and words of Greek
    capital letters, where it depends on the position of a sigma.  Other
    text is left out of the model. *)

Definition is_ascii (s : string) : bool :=
  forallb (λ c, (N_of_ascii c <? 128)%N) (list_ascii_of_string s).

Definition lower_char (c : ascii) : ascii :=
  let n := N_of_ascii c in
  if ((65 <=? n)%N && (n <=? 90)%N)%bool then ascii_of_N (n + 32) else c.

(** [str.lower] on ASCII text *)
Fixpoint lower (s : string) : string :=
  match s with
  | EmptyString => EmptyString
  | String c r => String (lower_char c) (lower r)
  end.

(** The Greek capital letters are U+0391 (Alpha) to U+03A9 (Omega) without
    the unassigned U+03A2; in UTF-8 they are the byte 0xCE followed by 0x91
    to 0xA9.  A text made of these letters only is read as the list of
    their second bytes. *)
Definition is_greek_capital (b : N) : bool :=
  ((145 <=? b)%N && (b <=? 169)%N && negb (b =? 162)%N)%bool.

Fixpoint greek_capitals (s : string) : option (list N) :=
  match s with
  | EmptyString => Some []
  | String c1 (String c2 r) =>
      if ((N_of_ascii c1 =? 206)%N && is_greek_capital (N_of_ascii c2))%bool
      then cons (N_of_ascii c2) <$> greek_capitals r
      else None
  | String _ EmptyString => None
  end.

(** The small letter of a capital other than sigma is 32 code points up:
    U+03B1 to U+03BF are 0xCE 0xB1 to 0xCE 0xBF in UTF-8, U+03C0 to U+03C9
    are 0xCF 0x80 to 0xCF 0x89. *)
Definition greek_small (b : N) : string :=
  if (b <=? 159)%N
  then String (ascii_of_N 206) (String (ascii_of_N (b + 32)) EmptyString)
  else String (ascii_of_N 207) (String (ascii_of_N (b - 32)) EmptyString).

(** U+03C2, the final small sigma *)
Definition final_sigma : string :=
  String (ascii_of_N 207) (String (ascii_of_N 130) EmptyString).

(** [str.lower] on a word of Greek capitals.  A capital sigma (U+03A3,
    second byte 0xA3) becomes the final small sigma when a cased letter
    precedes it and none follows; in a word of capitals that is: when it is
    the last letter and not the first.  [first] says that no letter
    precedes. *)
Fixpoint greek_lower (first : bool) (bs : list N) : string :=
  match bs with
  | [] => EmptyString
  | b :: r =>
      ((if ((b =? 163)%N && negb first && bool_decide (r = []))%bool
        then final_sigma else greek_small b)
       ++ greek_lower false r)%string
  end.

(** [s.lower()] *)
Definition py_lower (s : string) : outcome string :=
  if is_ascii s then Ok (lower s)
  else match greek_capitals s with
       | Some bs => Ok (greek_lower true bs)
       | None => Untyped
       end.

Fixpoint is_prefix (p s : string) : bool :=
  match p, s with
  | EmptyString, _ => true
  | String a p', String b s' => Ascii.eqb a b && is_prefix p' s'
  | String _ _, EmptyString => false
  end.

(** [kw in s] *)
Fixpoint contains (kw s : string) : bool :=
  is_prefix kw s ||
  match s with
  | EmptyString => false
  | String _ r => contains kw r
  end.

(** ** Task operations *)

(** [Planner.add_task] *)
Definition add_task (now title category : string) (due_date : option string)
    (priority : Z) (notes : string) (w : World) : World * Z :=
  let p := self w in
  let t := set_id (Some (next_id p))
             (new_Task now title category due_date priority notes) in
  let p' := mkPlanner (Dict.set (next_id p) t (tasks p)) (completed p)
                      (next_id p + 1) (xp p) (level p) (achievements p) in
  (save {| self := p'; data_file := data_file w |}, next_id p).

(** The key function [due_key] of [view_tasks]: an empty string is falsy. *)
Definition due_key (pair : Z * Task) : outcome Z :=
  match due_date pair.2 with
  | Some d => if String.eqb d "" then Ok datetime_max else fromisoformat d
  | None => Ok datetime_max
  end.

(** [Planner.view_tasks]; an omitted argument takes its default. *)
Definition view_tasks (show_completed : option bool) (sort_by : option string)
    (p : Planner) : outcome (list (Z * Task)) :=
  let show_completed := default false show_completed in
  let sort_by := default "priority" sort_by in
  let items := if show_completed then completed p else tasks p in
  match items with
  | [] => Ok []
  | _ =>
      if String.eqb sort_by "priority" then
        list_sort Z.leb (λ x, Ok (priority x.2)) items
      else if String.eqb sort_by "due" then
        list_sort Z.leb due_key items
      else
        list_sort Z.leb (λ x, Ok x.1) items
  end.

(** [Planner.get_task]; a [Task] object is always truthy. *)
Definition get_task (task_id : Z) (p : Planner) : option Task :=
  match Dict.get task_id (tasks p) with
  | Some t => Some t
  | None => Dict.get task_id (completed p)
  end.

(** [Planner.delete_task] *)
Definition delete_task (task_id : Z) (w : World) : World * option Task :=
  let p := self w in
  let '(p', removed) :=
    match Dict.get task_id (tasks p) with
    | Some t =>
        (mkPlanner (Dict.pop task_id (tasks p)) (completed p)
                   (next_id p) (xp p) (level p) (achievements p), Some t)
    | None =>
        match Dict.get task_id (completed p) with
        | Some t =>
            (mkPlanner (tasks p) (Dict.pop task_id (completed p))
                       (next_id p) (xp p) (level p) (achievements p), Some t)
        | None => (p, None)
        end
    end in
  (save {| self := p'; data_file := data_file w |}, removed).

(** A keyword argument of [edit_task], with a value of the attribute's type
    or [None].  The eight data attributes satisfy [hasattr]; [kw_unknown]
    stands for a keyword that names no attribute of the task. *)
Inductive kwarg :=
| kw_id (v : option Z)
| kw_title (v : option string)
| kw_category (v : option string)
| kw_due_date (v : option string)
| kw_priority (v : option Z)
| kw_notes (v : option string)
| kw_created_at (v : option string)
| kw_completed_at (v : option string)
| kw_unknown.

(** [if hasattr(t, k) and v is not None: setattr(t, k, v)] *)
Definition apply_kwarg (t : Task) (kw : kwarg) : Task :=
  match kw with
  | kw_id (Some v) => set_id (Some v) t
  | kw_title (Some v) => set_title v t
  | kw_category (Some v) => set_category v t
  | kw_due_date (Some v) => set_due_date (Some v) t
  | kw_priority (Some v) => set_priority v t
  | kw_notes (Some v) => set_notes v t
  | kw_created_at (Some v) => set_created_at v t
  | kw_completed_at (Some v) => set_completed_at (Some v) t
  | _ => t
  end.

Definition apply_kwargs (kwargs : list kwarg) (t : Task) : Task :=
  fold_left apply_kwarg kwargs t.

(** [Planner.edit_task]: the object [get_task] returns is mutated where it
    is stored. *)
Definition edit_task (task_id : Z) (kwargs : list kwarg) (w : World)
    : World * bool :=
  let p := self w in
  match get_task task_id p with
  | None => (w, false)
  | Some _ =>
      let p' :=
        if Dict.mem task_id (tasks p) then
          mkPlanner (Dict.alter (apply_kwargs kwargs) task_id (tasks p))
                    (completed p)
                    (next_id p) (xp p) (level p) (achievements p)
        else
          mkPlanner (tasks p)
                    (Dict.alter (apply_kwargs kwargs) task_id (completed p))
                    (next_id p) (xp p) (level p) (achievements p) in
      (save {| self := p'; data_file := data_file w |}, true)
  end.

(** ** Completion workflow *)

Definition milestones : list (Z * string) :=
  [ (1, "First Task Done"); (5, "Getting Serious");
    (10, "Study Machine"); (25, "Legendary Studier") ].

Definition add_if (cond : bool) (name : string) (a : gset string) : gset string :=
  if cond && negb (bool_decide (name ∈ a)) then {[name]} ∪ a else a.

(** [Planner._check_achievements_on_completion] *)
Definition _check_achievements_on_completion (p : Planner) : Planner :=
  let completed_count := Z.of_nat (length (completed p)) in
  let a1 := fold_left (λ a m, add_if (m.1 <=? completed_count) m.2 a)
                      milestones (achievements p) in
  let a2 := add_if (2 <=? level p) "Level 2 Achieved" a1 in
  let a3 := add_if (5 <=? level p) "Level 5 Achieved" a2 in
  mkPlanner (tasks p) (completed p) (next_id p) (xp p) (level p) a3.

Record completion := mkCompletion {
  gained : Z;
  leveled_up : bool;
  prev_xp : Z;
}.

(** The second component of the pair [complete_task] returns. *)
Inductive payload :=
| Message (s : string)
| Info (c : completion).

(** [Planner.complete_task] *)
Definition complete_task (now : string) (task_id : Z) (w : World)
    : World * (bool * payload) :=
  let p := self w in
  match Dict.get task_id (tasks p) with
  | None => (w, (false, Message "Task not found or already completed."))
  | Some t =>
      let t := set_completed_at (Some now) t in
      let tasks' := Dict.pop task_id (tasks p) in
      let completed' := Dict.set task_id t (completed p) in
      let gained := XP_PER_TASK in
      let prev_xp := xp p in
      let xp' := xp p + gained in
      let leveled_up := level p <? xp' / XP_TO_LEVEL + 1 in
      let level' := if leveled_up then xp' / XP_TO_LEVEL + 1 else level p in
      let p' := _check_achievements_on_completion
                  (mkPlanner tasks' completed' (next_id p) xp' level'
                             (achievements p)) in
      (save {| self := p'; data_file := data_file w |},
       (true, Info (mkCompletion gained leveled_up prev_xp)))
  end.

(** ** Queries *)

Record stats := mkStats {
  st_pending : Z;
  st_completed : Z;
  st_total : Z;
  st_xp : Z;
  st_level : Z;
  st_achievements : list string;
}.

(** [Planner.stats_summary] *)
Definition stats_summary (p : Planner) : stats :=
  let total_tasks := Z.of_nat (length (tasks p)) + Z.of_nat (length (completed p)) in
  mkStats (Z.of_nat (length (tasks p))) (Z.of_nat (length (completed p)))
          total_tasks (xp p) (level p)
          ((stable_sort String.leb
              (map (λ s, (s, s)) (elements (achievements p)))).*2).

(** [keyword in field.lower()] *)
Definition in_lowered (keyword field : string) : outcome bool :=
  l ←! py_lower field; Ok (contains keyword l).

(** The condition of [search_tasks]; [or] evaluates its right operand only
    when the left one is false. *)
Definition matches (keyword : string) (t : Task) : outcome bool :=
  a ←! in_lowered keyword (title t);
  if a then Ok true
  else b ←! in_lowered keyword (notes t);
       if b then Ok true else in_lowered keyword (category t).

(** The inner loop of [search_tasks] over one dictionary. *)
Fixpoint search_items (keyword : string) (d : list (Z * Task))
    : outcome (list (Z * Task)) :=
  match d with
  | [] => Ok []
  | kt :: r =>
      m ←! matches keyword kt.2;
      found ←! search_items keyword r;
      Ok (if m then kt :: found else found)
  end.

(** [Planner.search_tasks] *)
Definition search_tasks (keyword : string) (p : Planner)
    : outcome (list (Z * Task)) :=
  keyword ←! py_lower keyword;
  found_pending ←! search_items keyword (tasks p);
  found_completed ←! search_items keyword (completed p);
  Ok (found_pending ++ found_completed).

(** ** Sessions: sequences of engine calls *)

Inductive op :=
| Add (now title category : string) (due_date : option string)
      (priority : Z) (notes : string)
| View (show_completed : option bool) (sort_by : option string)
| Get (task_id : Z)
| Delete (task_id : Z)
| Edit (task_id : Z) (kwargs : list kwarg)
| Complete (now : string) (task_id : Z)
| Stats
| Search (keyword : string).

Inductive retval :=
| RId (i : Z)
| RItems (r : outcome (list (Z * Task)))
| RTask (t : option Task)
| RBool (b : bool)
| RCompleted (r : bool * payload)
| RStats (s : stats)
| RFound (r : outcome (list (Z * Task))).

Definition exec (o : op) (w : World) : World * retval :=
  match o with
  | Add now title category due_date priority notes =>
      let '(w', i) := add_task now title category due_date priority notes w in
      (w', RId i)
  | View show_completed sort_by =>
      (w, RItems (view_tasks show_completed sort_by (self w)))
  | Get task_id => (w, RTask (get_task task_id (self w)))
  | Delete task_id =>
      let '(w', r) := delete_task task_id w in (w', RTask r)
  | Edit task_id kwargs =>
      let '(w', b) := edit_task task_id kwargs w in (w', RBool b)
  | Complete now task_id =>
      let '(w', r) := complete_task now task_id w in (w', RCompleted r)
  | Stats => (w, RStats (stats_summary (self w)))
  | Search keyword => (w, RFound (search_tasks keyword (self w)))
  end.

Fixpoint run (ops : list op) (w : World) : World * list retval :=
  match ops with
  | [] => (w, [])
  | o :: r =>
      let '(w1, v) := exec o w in
      let '(w2, vs) := run r w1 in
      (w2, v :: vs)
  end.

(** The ids the [add_task] calls of a session returned, in call order. *)
Fixpoint added_ids (rets : list retval) : list Z :=
  match rets with
  | [] => []
  | RId i :: r => i :: added_ids r
  | _ :: r => added_ids r
  end.

(** The states of a dataset's life: the first start finds no file or an
    unreadable one; then come engine calls (those that [allowed] admits)
    and restarts of the process on the file the engine wrote. *)
Inductive reachable_by (allowed : op → Prop) : World → Prop :=
| reach_fresh now f w :
    f = NoFile ∨ f = Unreadable →
    new_Planner now f = Some w →
    reachable_by allowed w
| reach_exec o w :
    allowed o →
    reachable_by allowed w →
    reachable_by allowed (exec o w).1
| reach_restart now w w' :
    reachable_by allowed w →
    new_Planner now (data_file w) = Some w' →
    reachable_by allowed w'.

Definition reachable : World → Prop := reachable_by (λ _, True).

Definition is_delete (o : op) : Prop :=
  match o with Delete _ => True | _ => False end.

(** ** Vocabulary of the statements *)

(** Keys are unique, as in any Python dictionary. *)
Definition is_dict {V} (d : list (Z * V)) : Prop := NoDup (Dict.keys d).



(** What a dump of [p] loads as: every task carries its key as id (a
    pending task whose key is also a completed key keeps its own). *)
Definition normalize (p : Planner) : Planner :=
  mkPlanner (restore_ids_pending (completed p) (tasks p))
            (restore_ids (completed p))
            (next_id p) (xp p) (level p) (achievements p).

(** Every task of the dictionary carries its key in its id attribute. *)
Definition ids_agree (d : list (Z * Task)) : Prop :=
  Forall (λ kt, id kt.2 = Some kt.1) d.


(** A dictionary with the id attributes blanked: what remains are the keys,
    their order and every other attribute. *)
Definition forget_ids (d : list (Z * Task)) : list (Z * Task) :=
  map (λ kt, (kt.1, set_id None kt.2)) d.

(** The invariant of reachable planners. *)
Record planner_ok (p : Planner) : Prop := {
  ok_tasks : is_dict (tasks p);
  ok_completed : is_dict (completed p);
  ok_xp : 0 ≤ xp p;
  ok_level : level p = xp p / XP_TO_LEVEL + 1;
  ok_bound :
    ∀ k, k ∈ Dict.keys (tasks p) ++ Dict.keys (completed p) → k < next_id p;
  ok_disjoint :
    ∀ k, k ∈ Dict.keys (tasks p) → k ∉ Dict.keys (completed p);
  ok_milestones :
    ∀ m, m ∈ milestones →
         m.1 ≤ Z.of_nat (length (completed p)) → m.2 ∈ achievements p;
}.

(** The data file holds a document that loads as the planner in memory. *)
Definition file_ok (w : World) : Prop :=
  ∃ doc, data_file w = Stored doc ∧
         ∀ now, load_try now doc = Ok (normalize (self w)).

(** Only earned milestones are held. *)
Definition earned_only (p : Planner) : Prop :=
  ∀ m, m ∈ milestones →
       m.2 ∈ achievements p → m.1 ≤ Z.of_nat (length (completed p)).

(** The dictionary that [view_tasks] lists. *)
Definition shown (show_completed : option bool) (p : Planner) : list (Z * Task) :=
  if default false show_completed then completed p else tasks p.

(** Every due date that is set is a calendar date in the form 'YYYY-MM-DD'. *)
Definition due_dates_valid (items : list (Z * Task)) : Prop :=
  ∀ x d, x ∈ items → due_date x.2 = Some d →
         ∃ y m dd, parse_date d = Some (y, m, dd) ∧ valid_date y m dd = true.

(** The calendar date of a task with a due date, as the number yyyymmdd. *)
Definition due_day (x : Z * Task) : Z :=
  match due_date x.2 ≫= parse_date with
  | Some (y, m, d) => y * 10000 + m * 100 + d
  | None => 0
  end.

(** The sort key of a task whose due date, if set, is valid. *)
Definition due_val (x : Z * Task) : Z :=
  match due_date x.2 ≫= parse_date with
  | Some (y, m, d) => datetime_of y m d 0
  | None => datetime_max
  end.

(** The ids of a listing, in the order listed. *)
Definition listed_ids (r : outcome (list (Z * Task))) : outcome (list Z) :=
  l ←! r; Ok (l.*1).

(** Two characters are the same letter when they are equal, or one is a
    capital letter A to Z (codes 65 to 90) and the other its small letter
    (32 codes up). *)
Definition same_letter (a b : ascii) : Prop :=
  let x := N_of_ascii a in
  let y := N_of_ascii b in
  x = y ∨ ((65 ≤ x ≤ 90)%N ∧ y = (x + 32)%N) ∨ ((65 ≤ y ≤ 90)%N ∧ x = (y + 32)%N).

(** Two texts that differ in letter case only. *)
Fixpoint eq_ignoring_case (s t : string) : Prop :=
  match s, t with
  | EmptyString, EmptyString => True
  | String a s', String b t' => same_letter a b ∧ eq_ignoring_case s' t'
  | _, _ => False
  end.

(** [kw] occurs in [s] when case is ignored: some stretch of [s] differs
    from [kw] in letter case only. *)
Definition ci_substring (kw s : string) : Prop :=
  ∃ pre mid post, s = (pre ++ mid ++ post)%string ∧ eq_ignoring_case mid kw.

(** [kw] occurs in [s] as it is written. *)
Definition substring (kw s : string) : Prop :=
  ∃ pre post, s = (pre ++ kw ++ post)%string.

(** The title, the notes and the category of every task are ASCII text. *)
Definition ascii_task (kt : Z * Task) : Prop :=
  is_ascii (title kt.2) = true ∧ is_ascii (notes kt.2) = true ∧
  is_ascii (category kt.2) = true.

Definition ascii_planner (p : Planner) : Prop :=
  Forall ascii_task (tasks p) ∧ Forall ascii_task (completed p).

(** The integers that [json.dump] writes and [int] reads back: CPython 3.11
    and later refuse to convert between [str] and an [int] of more than
    4300 decimal digits (the default of [sys.int_max_str_digits]) with a
    [ValueError]; earlier versions have no limit. *)
Definition int_max_str_digits : Z := 4300.

Definition int_ok (z : Z) : bool := Z.abs z <? 10 ^ int_max_str_digits.

Definition task_ints_ok (kt : Z * Task) : bool :=
  int_ok kt.1 && int_ok (priority kt.2) && from_option int_ok true (id kt.2).

(** Every integer that [save] writes for the planner can be written. *)
Definition ints_ok (p : Planner) : bool :=
  int_ok (next_id p) && int_ok (xp p) && int_ok (level p)
  && forallb task_ints_ok (tasks p) && forallb task_ints_ok (completed p).

(** ** Sample states *)

(** The state of the first start, on an absent file. *)
Definition fresh_world : World :=
  _create_default_file (mkWorld default_Planner NoFile).

(** A planner with one pending task, number 1. *)
Definition one_pending : World :=
  (add_task "2024-05-01T09:00:00" "Read Ch.1" "General" None 3 ""
     fresh_world).1.

(** A planner whose only task, number 1, is completed. *)
Definition already_done : World :=
  (complete_task "2024-05-01T09:30:00" 1 one_pending).1.


(** A data file that is a JSON list, and one whose only task has no title. *)
Definition list_file : storage := Stored (JArr [JNum 1; JNum 2]).

Definition untitled_file : storage :=
  Stored (JObj [ ("next_id", JNum 2); ("xp", JNum 0); ("level", JNum 1);
                 ("achievements", JArr []);
                 ("tasks", JObj [("1", JObj [("priority", JNum 2)])]);
                 ("completed", JObj []) ]).

(** Five tasks added and completed in turn. *)
Definition five_done : World :=
  (run (map (λ t, Add "2024-05-01T09:00:00" t "General" None 3 "")
            ["a"; "b"; "c"; "d"; "e"]
        ++ map (Complete "2024-05-02T09:00:00") [1; 2; 3; 4; 5])
       fresh_world).1.

(** Six tasks are added and the first five completed; the completed tasks 1
    and 2 are deleted; then task 6 is completed. *)
Definition deletions_session : list op :=
  map (λ t, Add "2024-05-01T09:00:00" t "General" None 3 "")
      ["a"; "b"; "c"; "d"; "e"; "f"]
  ++ map (Complete "2024-05-02T09:00:00") [1; 2; 3; 4; 5]
  ++ [Delete 1; Delete 2; Complete "2024-05-03T09:00:00" 6].

Definition after_deletions : World := (run deletions_session fresh_world).1.

(** The number of successful [complete_task] calls of a session. *)
Fixpoint completions (rets : list retval) : nat :=
  match rets with
  | [] => 0
  | RCompleted (true, _) :: r => S (completions r)
  | _ :: r => completions r
  end.

(** Five tasks are added and four completed and then deleted; the fifth is
    completed last. *)
Definition emptied_session : list op :=
  map (λ t, Add "2024-05-01T09:00:00" t "General" None 3 "")
      ["a"; "b"; "c"; "d"; "e"]
  ++ map (Complete "2024-05-02T09:00:00") [1; 2; 3; 4]
  ++ map Delete [1; 2; 3; 4]
  ++ [Complete "2024-05-03T09:00:00" 5].

(** Task 1 with priority 5 and task 2 with priority 1. *)
Definition two_priorities : World :=
  (run [Add "2024-05-01T09:00:00" "Tidy desk" "General" None 5 "";
        Add "2024-05-01T09:01:00" "Revise" "Study" (Some "2024-06-01") 1 ""]
       fresh_world).1.

(** A task whose due date is not a date. *)
Definition vague_due : World :=
  (add_task "2024-05-01T09:00:00" "Essay" "Study" (Some "tomorrow") 3 ""
     fresh_world).1.

(** Tasks with and without due dates, added out of date order. *)
Definition with_due_dates : World :=
  (run [Add "2024-05-01T09:00:00" "Essay" "Study" (Some "2024-06-10") 3 "";
        Add "2024-05-01T09:01:00" "Stretch" "Health" None 5 "";
        Add "2024-05-01T09:02:00" "Quiz prep" "Study" (Some "2024-05-20") 1 "";
        Add "2024-05-01T09:03:00" "Leap day" "Misc" (Some "2024-02-29") 2 ""]
       fresh_world).1.

(** A pending and a completed task that mention "Algebra". *)
Definition algebra_world : World :=
  (run [Add "2024-05-01T09:00:00" "Linear ALGEBRA sheet" "Study" None 2 "";
        Add "2024-05-01T09:01:00" "Laundry" "Home" None 4 "";
        Add "2024-05-01T09:02:00" "Office hours" "Study" None 3 "ask about algebra";
        Complete "2024-05-01T10:00:00" 3]
       fresh_world).1.

(** A pending task whose title is the Greek word for street, in capitals. *)
Definition odos_world : World :=
  (add_task "2024-05-01T09:00:00" "ΟΔΟΣ" "General" None 3 "" fresh_world).1.

(** Key 1 in both dictionaries: the pending task carries id 5, the completed
    one id 1. *)
Definition overlap : World :=
  mkWorld
    (mkPlanner
       [(1, mkTask (Some 5) "Essay" "Study" None 3 "" "2024-05-01T09:00:00" None)]
       [(1, mkTask (Some 1) "Quiz" "Study" None 2 "" "2024-05-01T08:00:00"
               (Some "2024-05-01T08:30:00"))]
       2 20 1 {["First Task Done"]})
    NoFile.

(** ** Vocabulary of the further properties *)

(** The names [_check_achievements_on_completion] can award. *)
Definition award_names : list string :=
  [ "First Task Done"; "Getting Serious"; "Study Machine";
    "Legendary Studier"; "Level 2 Achieved"; "Level 5 Achieved" ].

(** Whether a call returned the success flag of [complete_task]. *)
Definition completed_ok (r : retval) : bool :=
  match r with RCompleted (true, _) => true | _ => false end.

(** ** The command-line layer

    Standard input is the list of the lines still to be read: [input] takes
    the first one and raises [EOFError] when none is left.  What the
    commands print is not modelled: the screen is only written, and no
    branch depends on it; so the prompt texts are no arguments here. *)

(** How a function that reads input ends: it returns a value and leaves the
    rest of the input; [EOFError] or another exception leaves it; or a line
    takes it out of the model (a spelling of a number or a date that
    [py_int] or [parse_date] do not cover). *)
Inductive cli (A : Type) :=
| Returned (a : A) (stdin : list string)
| EndOfInput
| Uncaught (e : exn)
| OutOfModel.
Arguments Returned {A} a stdin.
Arguments EndOfInput {A}.
Arguments Uncaught {A} e.
Arguments OutOfModel {A}.

Definition cbind {A B} (m : cli A) (k : A → list string → cli B) : cli B :=
  match m with
  | Returned a rest => k a rest
  | EndOfInput => EndOfInput
  | Uncaught e => Uncaught e
  | OutOfModel => OutOfModel
  end.

(** [input(...)] *)
Definition input (stdin : list string) : cli string :=
  match stdin with
  | [] => EndOfInput
  | line :: rest => Returned line rest
  end.

(** [wait_enter] *)
Definition wait_enter (stdin : list string) : cli unit :=
  cbind (input stdin) (λ _ rest, Returned tt rest).

(** [str.strip()] on ASCII text: the white space characters are 9 to 13,
    28 to 31 and the blank.  The white space beyond ASCII that [str.strip]
    removes as well (the no-break space, say) is kept here; statements that
    depend on the difference ask for ASCII answers (see [date_answer]). *)
Definition is_space (c : ascii) : bool :=
  let n := N_of_ascii c in
  ((9 <=? n)%N && (n <=? 13)%N) || ((28 <=? n)%N && (n <=? 32)%N).

Fixpoint lstrip (s : string) : string :=
  match s with
  | EmptyString => EmptyString
  | String c r => if is_space c then lstrip r else s
  end.

Fixpoint rstrip (s : string) : string :=
  match s with
  | EmptyString => EmptyString
  | String c r =>
      match rstrip r with
      | EmptyString => if is_space c then EmptyString else String c EmptyString
      | r' => String c r'
      end
  end.

Definition strip (s : string) : string := rstrip (lstrip s).

(** [datetime.date.fromisoformat], with the cases of [fromisoformat]: what
    Python 3.11 and later accept beyond 'YYYY-MM-DD' (the basic form
    'YYYYMMDD', week dates) has a digit and is left out of the model. *)
Definition date_fromisoformat (s : string) : outcome (Z * Z * Z) :=
  match parse_date s with
  | Some (y, m, d) =>
      if valid_date y m d then Ok (y, m, d) else Raises ValueError
  | None => if has_digit s then Untyped else Raises ValueError
  end.

(** [prompt_date]: asks again after every rejected line. *)
Fixpoint prompt_date (stdin : list string) : cli (option string) :=
  match stdin with
  | [] => EndOfInput
  | line :: rest =>
      let s := strip line in
      if String.eqb s "" then Returned None rest
      else match date_fromisoformat s with
           | Ok _ => Returned (Some s) rest
           | Raises _ => prompt_date rest
           | Untyped => OutOfModel
           end
  end.

(** [prompt_priority]: [int(input(...) or "3")], then the range check, whose
    [ValueError] the same handler catches. *)
Fixpoint prompt_priority (stdin : list string) : cli Z :=
  match stdin with
  | [] => EndOfInput
  | line :: rest =>
      match py_int (if String.eqb line "" then "3" else line) with
      | Ok p =>
          if (p <? 1) || (5 <? p) then prompt_priority rest
          else Returned p rest
      | Raises _ => prompt_priority rest
      | Untyped => OutOfModel
      end
  end.

(** [x.strip() or dflt] *)
Definition strip_or (dflt line : string) : string :=
  if String.eqb (strip line) "" then dflt else strip line.

(** A command returns the world it leaves, and how it ended. *)
Definition ended {A} (m : cli A) : cli unit :=
  cbind m (λ _ rest, Returned tt rest).

(** [cmd_add] *)
Definition cmd_add (now : string) (stdin : list string) (w : World)
    : World * cli unit :=
  match input stdin with
  | Returned line rest =>
      let title := strip line in
      if String.eqb title "" then (w, wait_enter rest)
      else
        let answers :=
          cbind (input rest) (λ line rest,
          let category := strip_or "General" line in
          cbind (prompt_date rest) (λ due rest,
          cbind (prompt_priority rest) (λ priority rest,
          cbind (input rest) (λ line rest,
          Returned (category, due, priority, strip line) rest)))) in
        match answers with
        | Returned (category, due, priority, notes) rest =>
            let '(w', tid) :=
              add_task now title category due priority notes w in
            (w', wait_enter rest)
        | other => (w, ended other)
        end
  | other => (w, ended other)
  end.


(** [int(s)] where no handler is around: the exception leaves the command. *)
Definition int_uncaught (s : string) (rest : list string) : cli Z :=
  match py_int s with
  | Ok z => Returned z rest
  | Raises e => Uncaught e
  | Untyped => OutOfModel
  end.

(** [cmd_edit] *)
Definition cmd_edit (stdin : list string) (w : World) : World * cli unit :=
  match input stdin with
  | Returned line rest =>
      match py_int line with
      | Ok tid =>
          match get_task tid (self w) with
          | None => (w, wait_enter rest)
          | Some t =>
              let answers :=
                cbind (input rest) (λ line rest,
                let new_title := strip_or (title t) line in
                cbind (input rest) (λ line rest,
                let new_category := strip_or (category t) line in
                cbind (prompt_date rest) (λ new_due rest,
                let new_due := match new_due with
                               | None => due_date t
                               | Some d => Some d
                               end in
                cbind (input rest) (λ line rest,
                let new_priority := strip line in
                cbind (if String.eqb new_priority ""
                       then Returned (priority t) rest
                       else int_uncaught new_priority rest)
                      (λ new_priority rest,
                cbind (input rest) (λ line rest,
                let new_notes := strip_or (notes t) line in
                Returned [ kw_title (Some new_title);
                           kw_category (Some new_category);
                           kw_due_date new_due;
                           kw_priority (Some new_priority);
                           kw_notes (Some new_notes) ] rest)))))) in
              match answers with
              | Returned kwargs rest =>
                  let '(w', _) := edit_task tid kwargs w in
                  (w', wait_enter rest)
              | other => (w, ended other)
              end
          end
      | Raises _ => (w, wait_enter rest)
      | Untyped => (w, OutOfModel)
      end
  | other => (w, ended other)
  end.

(** An answer to [prompt_date] that the model covers on every Python
    version: ASCII text that, stripped, has no digit at all or has the form
    'YYYY-MM-DD'. *)
Definition date_answer (line : string) : Prop :=
  is_ascii line = true ∧
  (has_digit (strip line) = false ∨ is_Some (parse_date (strip line))).

(** A text of the form 'YYYY-MM-DD' that names a calendar date. *)
Definition calendar_date (s : string) : Prop :=
  ∃ y m dd, parse_date s = Some (y, m, dd) ∧ valid_date y m dd = true.

(** An answer that [prompt_date] rejects: neither blank nor a date. *)
Definition rejected_date (line : string) : Prop :=
  strip line ≠ "" ∧ ¬ calendar_date (strip line).

(** [prompt_date] calls itself after every rejected line, and CPython stops
    a recursion at 1000 frames ([sys.getrecursionlimit]); this many lines
    stay well below. *)
Definition recursion_room : nat := 900.


(** * Properties *)

(** Case analysis on the lookups an operation branches on. *)
Ltac op_cases :=
  unfold delete_task, edit_task, complete_task;
  repeat match goal with
  | |- context [match Dict.get ?k ?d with _ => _ end] =>
      destruct (Dict.get k d) eqn:?
  | |- context [match get_task ?k ?p with _ => _ end] =>
      destruct (get_task k p) eqn:?
  | |- context [if Dict.mem ?k ?d then _ else _] =>
      destruct (Dict.mem k d) eqn:?
  end;
  cbn [fst snd self data_file save].

(** A closed list is taken apart element by element. *)
Ltac elem_cases H :=
  repeat (apply elem_of_cons in H as [->|H]);
  [.. | by apply elem_of_nil in H].

(** ** Dictionaries *)

Section dict_facts.
Context {K : Type} `{EqDecision K} {V : Type}.
Implicit Types (k : K) (v : V) (d : list (K * V)).

Lemma get_Some_elem k v d : Dict.get k d = Some v → (k, v) ∈ d.
Proof.
  induction d as [|[k' v'] r IH]; csimpl; [done|].
  destruct (decide (k = k')) as [->|]; intros E.
  - injection E as ->. left.
  - right. auto.
Qed.

Lemma get_None_keys k d : Dict.get k d = None ↔ k ∉ Dict.keys d.
Proof.
  unfold Dict.keys. induction d as [|[k' v'] r IH]; csimpl.
  - split; [intros _; apply not_elem_of_nil | done].
  - rewrite not_elem_of_cons. destruct (decide (k = k')); [|tauto].
    split; [done | tauto].
Qed.

Lemma get_is_Some_keys k d : is_Some (Dict.get k d) ↔ k ∈ Dict.keys d.
Proof.
  destruct (Dict.get k d) eqn:E.
  - split; [intros _|eauto].
    destruct (decide (k ∈ Dict.keys d)) as [|N]; [done|].
    apply get_None_keys in N. congruence.
  - split; [intros [? ?]; done|]. intros Hin.
    apply get_None_keys in E. done.
Qed.

Lemma elem_get k v d : NoDup (Dict.keys d) → (k, v) ∈ d → Dict.get k d = Some v.
Proof.
  unfold Dict.keys. induction d as [|[k' v'] r IH]; csimpl; intros ND Hin.
  - by apply elem_of_nil in Hin.
  - apply NoDup_cons in ND as [Hk ND].
    apply elem_of_cons in Hin as [E|Hin].
    + injection E as -> ->. by rewrite decide_True.
    + rewrite decide_False; [auto|]. intros ->. apply Hk.
      apply list_elem_of_fmap. by exists (k', v).
Qed.

Lemma mem_true k d : Dict.mem k d = true ↔ k ∈ Dict.keys d.
Proof.
  unfold Dict.mem. rewrite <- get_is_Some_keys.
  destruct (Dict.get k d); split; eauto; try done; intros [? ?]; done.
Qed.

Lemma mem_false k d : Dict.mem k d = false ↔ k ∉ Dict.keys d.
Proof.
  rewrite <- mem_true. destruct (Dict.mem k d); split; congruence.
Qed.

Lemma get_set_eq k v d : Dict.get k (Dict.set k v d) = Some v.
Proof.
  induction d as [|[k' v'] r IH]; csimpl.
  - by rewrite decide_True.
  - destruct (decide (k = k')) as [->|N]; csimpl.
    + by rewrite decide_True.
    + by rewrite decide_False.
Qed.


Lemma keys_set k v d :
  Dict.keys (Dict.set k v d) =
  if Dict.mem k d then Dict.keys d else Dict.keys d ++ [k].
Proof.
  unfold Dict.keys, Dict.mem. induction d as [|[k' v'] r IH]; csimpl; [done|].
  destruct (decide (k = k')) as [->|N]; csimpl; [done|].
  rewrite IH. by destruct (Dict.get k r).
Qed.

Lemma elem_of_keys_set k k' v d :
  k' ∈ Dict.keys (Dict.set k v d) ↔ k' = k ∨ k' ∈ Dict.keys d.
Proof.
  rewrite keys_set. destruct (Dict.mem k d) eqn:E.
  - apply mem_true in E. split; [tauto|]. by intros [->|?].
  - rewrite elem_of_app, list_elem_of_singleton. tauto.
Qed.

Lemma NoDup_keys_set k v d : NoDup (Dict.keys d) → NoDup (Dict.keys (Dict.set k v d)).
Proof.
  intros ND. rewrite keys_set. destruct (Dict.mem k d) eqn:E; [done|].
  apply mem_false in E. apply NoDup_app. split; [done|]. split.
  - intros x Hx Hx'. apply list_elem_of_singleton in Hx'. by subst.
  - apply NoDup_singleton.
Qed.

Lemma length_set k v d : (length d ≤ length (Dict.set k v d))%nat.
Proof.
  induction d as [|[k' v'] r IH]; csimpl; [lia|].
  destruct (decide (k = k')); csimpl; lia.
Qed.

Lemma keys_pop_subseteq k d : Dict.keys (Dict.pop k d) ⊆ Dict.keys d.
Proof.
  unfold Dict.keys. induction d as [|[k' v'] r IH]; csimpl; [done|].
  destruct (decide (k = k')); csimpl.
  - intros x Hx. by right.
  - intros x Hx. apply elem_of_cons in Hx as [->|Hx]; [left | right; auto].
Qed.

Lemma NoDup_keys_pop k d : NoDup (Dict.keys d) → NoDup (Dict.keys (Dict.pop k d)).
Proof.
  unfold Dict.keys. induction d as [|[k' v'] r IH]; csimpl; [done|].
  intros ND. apply NoDup_cons in ND as [Hk ND].
  destruct (decide (k = k')); csimpl; [done|].
  apply NoDup_cons. split; [|auto].
  intros Hin. apply Hk. by apply (keys_pop_subseteq k r).
Qed.

Lemma get_pop_eq k d : NoDup (Dict.keys d) → Dict.get k (Dict.pop k d) = None.
Proof.
  unfold Dict.keys. induction d as [|[k' v'] r IH]; csimpl; [done|].
  intros ND. apply NoDup_cons in ND as [Hk ND].
  destruct (decide (k = k')) as [->|N]; csimpl.
  - by apply get_None_keys.
  - rewrite decide_False; auto.
Qed.

Lemma get_pop_ne k k' d : k ≠ k' → Dict.get k' (Dict.pop k d) = Dict.get k' d.
Proof.
  intros N. induction d as [|[k2 v2] r IH]; csimpl; [done|].
  destruct (decide (k = k2)) as [->|N2]; csimpl.
  - rewrite decide_False; [done | congruence].
  - by rewrite IH.
Qed.

Lemma length_pop k d : (length (Dict.pop k d) ≤ length d)%nat.
Proof.
  induction d as [|[k' v'] r IH]; csimpl; [lia|].
  destruct (decide (k = k')); csimpl; lia.
Qed.

Lemma keys_alter f k d : Dict.keys (Dict.alter f k d) = Dict.keys d.
Proof.
  unfold Dict.keys. induction d as [|[k' v'] r IH]; csimpl; [done|].
  destruct (decide (k = k')); csimpl; [done | by rewrite IH].
Qed.

Lemma length_alter f k d : length (Dict.alter f k d) = length d.
Proof.
  induction d as [|[k' v'] r IH]; csimpl; [done|].
  destruct (decide (k = k')); csimpl; [done | by rewrite IH].
Qed.

Lemma get_alter_eq f k d : Dict.get k (Dict.alter f k d) = f <$> Dict.get k d.
Proof.
  induction d as [|[k' v'] r IH]; csimpl; [done|].
  destruct (decide (k = k')) as [->|N]; csimpl.
  - by rewrite decide_True.
  - by rewrite decide_False.
Qed.


Lemma set_fresh k v d : k ∉ Dict.keys d → Dict.set k v d = d ++ [(k, v)].
Proof.
  unfold Dict.keys. induction d as [|[k' v'] r IH]; csimpl; [done|].
  rewrite not_elem_of_cons. intros [N Hk].
  rewrite decide_False; [|done]. by rewrite IH.
Qed.

Lemma of_items_acc (l acc : list (K * V)) :
  NoDup (Dict.keys (acc ++ l)) →
  fold_left (λ a kv, Dict.set kv.1 kv.2 a) l acc = acc ++ l.
Proof.
  revert acc. induction l as [|[k v] r IH]; intros acc ND; csimpl.
  - by rewrite app_nil_r.
  - rewrite set_fresh.
    + rewrite IH; rewrite <- app_assoc; done.
    + unfold Dict.keys in *. rewrite fmap_app in ND.
      apply NoDup_app in ND as (_ & Hd & _).
      intros Hin. apply (Hd k Hin). csimpl. left.
Qed.

Lemma of_items_NoDup (l : list (K * V)) :
  NoDup (Dict.keys l) → Dict.of_items l = l.
Proof. intros ND. unfold Dict.of_items. by rewrite of_items_acc. Qed.
End dict_facts.

(** ** Completing a task that is not pending *)

(** C2: when [task_id] is not a key of the pending dictionary (unknown, or
    already completed), [complete_task] returns the failure flag with the
    message "Task not found or already completed." and leaves the planner
    (xp, level, pending, completed) and the data file as they were. *)
Theorem complete_task_not_pending now task_id w :
  task_id ∉ Dict.keys (tasks (self w)) →
  complete_task now task_id w =
    (w, (false, Message "Task not found or already completed.")).
Proof.
  intros Hk. apply get_None_keys in Hk.
  unfold complete_task. by rewrite Hk.
Qed.

Lemma complete_task_not_pending_witness :
  complete_task "2024-05-01T10:00:00" 1 already_done =
    (already_done, (false, Message "Task not found or already completed.")).
Proof.
  apply complete_task_not_pending. vm_compute.
  intros H. apply elem_of_nil in H. exact H.
Defined.

(** ** The level never goes down *)

Lemma level_complete_task now task_id w :
  level (self (complete_task now task_id w).1) =
    let recomputed := (xp (self w) + XP_PER_TASK) / XP_TO_LEVEL + 1 in
    if Dict.mem task_id (tasks (self w)) && (level (self w) <? recomputed)
    then recomputed else level (self w).
Proof.
  unfold complete_task, Dict.mem.
  destruct (Dict.get task_id (tasks (self w))) as [t|]; csimpl; [|done].
  by destruct (level (self w) <? _).
Qed.

(** C10: no engine operation lowers the stored level, and [complete_task]
    replaces it only by a recomputed level [xp // 100 + 1] that is strictly
    greater than the stored one. *)
Theorem level_monotone :
  (∀ o w, level (self w) ≤ level (self (exec o w).1)) ∧
  (∀ now task_id w,
     level (self (complete_task now task_id w).1) =
       let recomputed := (xp (self w) + XP_PER_TASK) / XP_TO_LEVEL + 1 in
       if Dict.mem task_id (tasks (self w)) && (level (self w) <? recomputed)
       then recomputed else level (self w)).
Proof.
  split; [|apply level_complete_task].
  intros o w. destruct o; csimpl; try lia.
  - op_cases; csimpl; lia.
  - op_cases; csimpl; lia.
  - pose proof (level_complete_task now task_id w) as E.
    destruct (complete_task now task_id w) as [w' r]. csimpl in *. rewrite E.
    destruct (Dict.mem _ _ && _) eqn:C; [|lia].
    apply andb_true_iff in C as [_ C]. lia.
Qed.

(** ** Editing *)

Lemma apply_kwargs_cons kw kwargs t :
  apply_kwargs (kw :: kwargs) t = apply_kwargs kwargs (apply_kwarg t kw).
Proof. reflexivity. Qed.



Lemma get_task_edit task_id kwargs w :
  get_task task_id (self (edit_task task_id kwargs w).1) =
    apply_kwargs kwargs <$> get_task task_id (self w).
Proof.
  unfold edit_task, get_task, Dict.mem.
  destruct (Dict.get task_id (tasks (self w))) as [t|] eqn:E; csimpl.
  - by rewrite get_alter_eq, E.
  - destruct (Dict.get task_id (completed (self w))) as [t|] eqn:E2; csimpl.
    + by rewrite E, get_alter_eq, E2.
    + by rewrite E, E2.
Qed.




(** ** Saving and loading *)

Lemma py_int_str z : py_int (py_str z) = Ok z.
Proof.
  unfold py_int, py_str. rewrite NilZero.isi.
  - by rewrite DecimalZ.of_to, String.eqb_refl.
  - destruct z; csimpl; [done| |done].
    intros [= E]. by apply DecimalPos.Unsigned.to_uint_nonnil in E.
  - destruct z; csimpl; [done|done|].
    intros [= E]. by apply DecimalPos.Unsigned.to_uint_nonnil in E.
Qed.

Lemma from_dict_to_dict now t : from_dict now (to_dict t) = Ok t.
Proof. by destruct t as [[i|] ? ? [d|] ? ? ? [c|]]. Qed.

Lemma load_items_dump now d :
  load_items now (map (λ kt, (py_str kt.1, to_dict kt.2)) d) = Ok d.
Proof.
  induction d as [|[k t] r IH]; [done|].
  cbn [map load_items fst snd]. rewrite py_int_str. cbn [obind].
  rewrite from_dict_to_dict. cbn [obind]. by rewrite IH.
Qed.

Lemma load_tasks_dump now d :
  is_dict d → load_tasks now (dump_tasks d) = Ok d.
Proof.
  intros ND. unfold load_tasks, dump_tasks. rewrite load_items_dump.
  cbn [obind]. by rewrite of_items_NoDup.
Qed.

Lemma load_achievements_dump (a : gset string) :
  load_achievements (JArr (map JStr (elements a))) = Ok a.
Proof.
  unfold load_achievements.
  assert (∀ l, existsb is_unhashable (map JStr l) = false) as ->.
  { induction l; [done|]. done. }
  assert (∀ l, strings_of (map JStr l) = Ok l) as ->.
  { induction l as [|s l IH]; [done|]. cbn [map strings_of as_str obind].
    by rewrite IH. }
  cbn [obind]. by rewrite list_to_set_elements_L.
Qed.

Lemma load_try_dump now p :
  is_dict (tasks p) → is_dict (completed p) →
  load_try now (dump p) = Ok (normalize p).
Proof.
  intros Ht Hc. unfold load_try, dump.
  change (jget "next_id" (JNum 1) _) with (JNum (next_id p)).
  change (jget "xp" (JNum 0) _) with (JNum (xp p)).
  change (jget "level" (JNum 1) _) with (JNum (level p)).
  change (jget "achievements" (JArr []) _)
    with (JArr (map JStr (elements (achievements p)))).
  change (jget "tasks" (JObj []) _) with (dump_tasks (tasks p)).
  change (jget "completed" (JObj []) _) with (dump_tasks (completed p)).
  cbn [as_int obind]. rewrite load_achievements_dump. cbn [obind].
  rewrite !load_tasks_dump by done. done.
Qed.

Lemma keys_restore_ids d : Dict.keys (restore_ids d) = Dict.keys d.
Proof. unfold Dict.keys, restore_ids. induction d as [|[k t] r IH]; csimpl; [done|]. by f_equal. Qed.

Lemma keys_restore_ids_pending cs d :
  Dict.keys (restore_ids_pending cs d) = Dict.keys d.
Proof.
  unfold Dict.keys, restore_ids_pending.
  induction d as [|[k t] r IH]; csimpl; [done|].
  f_equal; [|done]. by destruct (Dict.mem k cs).
Qed.

Lemma mem_restore_ids k d : Dict.mem k (restore_ids d) = Dict.mem k d.
Proof.
  destruct (Dict.mem k d) eqn:E.
  - apply mem_true. rewrite keys_restore_ids. by apply mem_true.
  - apply mem_false. rewrite keys_restore_ids. by apply mem_false.
Qed.

Lemma restore_ids_idemp d : restore_ids (restore_ids d) = restore_ids d.
Proof.
  unfold restore_ids. rewrite map_map. apply map_ext. by intros [k t].
Qed.

Lemma restore_ids_pending_idemp cs d :
  restore_ids_pending (restore_ids cs) (restore_ids_pending cs d)
  = restore_ids_pending cs d.
Proof.
  unfold restore_ids_pending. rewrite map_map. apply map_ext.
  intros [k t]. csimpl. rewrite mem_restore_ids.
  destruct (Dict.mem k cs) eqn:E; csimpl; by rewrite ?mem_restore_ids, E.
Qed.

Lemma normalize_idemp p : normalize (normalize p) = normalize p.
Proof.
  unfold normalize. csimpl.
  by rewrite restore_ids_idemp, restore_ids_pending_idemp.
Qed.

Lemma restore_ids_agree d : ids_agree d → restore_ids d = d.
Proof.
  induction 1 as [|[k t] r E _ IH]; [done|]. csimpl in *. rewrite IH.
  destruct t. csimpl in *. by subst.
Qed.

Lemma restore_ids_pending_agree cs d :
  ids_agree d → restore_ids_pending cs d = d.
Proof.
  induction 1 as [|[k t] r E _ IH]; [done|]. csimpl in *. rewrite IH.
  destruct (Dict.mem k cs); [done|]. destruct t. csimpl in *. by subst.
Qed.

Lemma normalize_agree p :
  ids_agree (tasks p) → ids_agree (completed p) → normalize p = p.
Proof.
  intros Ht Hc. unfold normalize.
  rewrite restore_ids_agree, restore_ids_pending_agree by done.
  by destruct p.
Qed.

Lemma planner_ok_normalize p : planner_ok p → planner_ok (normalize p).
Proof.
  intros [Ht Hc Hx Hl Hb Hd Hm]. split; csimpl; try done;
    unfold is_dict; rewrite ?keys_restore_ids_pending, ?keys_restore_ids;
    try done.
  intros m Hin. unfold restore_ids. rewrite length_map. auto.
Qed.

Lemma planner_ok_default : planner_ok default_Planner.
Proof.
  split; csimpl; try done; try apply NoDup_nil_2.
  { intros k Hk. by apply elem_of_nil in Hk. }
  { intros k Hk. by apply elem_of_nil in Hk. }
  intros m Hin Hle. exfalso.
  unfold milestones in Hin. elem_cases Hin; csimpl in Hle; lia.
Qed.

Lemma file_ok_save p f :
  is_dict (tasks p) → is_dict (completed p) →
  file_ok (save {| self := p; data_file := f |}).
Proof.
  intros Ht Hc. exists (dump p). split; [done|].
  intros now. by apply load_try_dump.
Qed.

(** The achievements after the check of a completion. *)
Lemma elem_of_add_if x c n a : x ∈ add_if c n a ↔ x ∈ a ∨ (c = true ∧ x = n).
Proof.
  unfold add_if. destruct c; csimpl.
  - destruct (bool_decide (n ∈ a)) eqn:E; csimpl.
    + apply bool_decide_eq_true in E. split; [tauto|]. intros [?|[_ ->]]; done.
    + rewrite elem_of_union, elem_of_singleton. tauto.
  - split; [tauto|]. intros [?|[? _]]; done.
Qed.

Lemma elem_of_check_achievements x p :
  x ∈ achievements (_check_achievements_on_completion p) ↔
  x ∈ achievements p ∨
  (∃ m, m ∈ milestones ∧ m.1 ≤ Z.of_nat (length (completed p)) ∧ x = m.2) ∨
  (2 ≤ level p ∧ x = "Level 2 Achieved") ∨
  (5 ≤ level p ∧ x = "Level 5 Achieved").
Proof.
  unfold _check_achievements_on_completion, milestones. csimpl.
  rewrite !elem_of_add_if, !Z.leb_le. split.
  - intros [[[[[[H|[H ->]]|[H ->]]|[H ->]]|[H ->]]|[H ->]]|[H ->]]; eauto 7.
    + right; left. eexists (_, _). split; [|done]. set_solver.
    + right; left. eexists (_, _). split; [|done]. set_solver.
    + right; left. eexists (_, _). split; [|done]. set_solver.
    + right; left. eexists (_, _). split; [|done]. set_solver.
  - intros [H|[(m & Hin & Hle & ->)|[[H ->]|[H ->]]]]; eauto 7.
    repeat (apply elem_of_cons in Hin as [->|Hin]; [csimpl in *; eauto 10|]).
    by apply elem_of_nil in Hin.
Qed.

(** ** The invariant along a dataset's life *)

Lemma exec_file o w :
  (exec o w).1 = w ∨
  data_file (exec o w).1 = Stored (dump (self (exec o w).1)).
Proof.
  destruct o; csimpl; op_cases; (by left) || (by right).
Qed.

Lemma level_step x :
  0 ≤ x →
  (if x / XP_TO_LEVEL + 1 <? (x + XP_PER_TASK) / XP_TO_LEVEL + 1
   then (x + XP_PER_TASK) / XP_TO_LEVEL + 1 else x / XP_TO_LEVEL + 1)
  = (x + XP_PER_TASK) / XP_TO_LEVEL + 1.
Proof.
  intros Hx. unfold XP_TO_LEVEL, XP_PER_TASK.
  destruct (Z.ltb_spec (x / 100 + 1) ((x + 20) / 100 + 1)); [done|].
  assert (x / 100 ≤ (x + 20) / 100) by (apply Z.div_le_mono; lia). lia.
Qed.

Lemma planner_ok_complete now task_id w :
  planner_ok (self w) → planner_ok (self (complete_task now task_id w).1).
Proof.
  intros [Ht Hc Hx Hl Hb Hd Hm]. unfold complete_task.
  destruct (Dict.get task_id (tasks (self w))) as [t|] eqn:Et; [|done].
  assert (task_id ∈ Dict.keys (tasks (self w))) as Hin.
  { apply get_is_Some_keys. by rewrite Et. }
  split; csimpl.
  - by apply NoDup_keys_pop.
  - by apply NoDup_keys_set.
  - unfold XP_PER_TASK. lia.
  - rewrite Hl. by apply level_step.
  - intros k. rewrite elem_of_app, elem_of_keys_set.
    intros [Hk|[->|Hk]]; apply Hb, elem_of_app; auto.
    left. by apply (keys_pop_subseteq task_id).
  - intros k Hk. rewrite elem_of_keys_set. intros [->|Hk'].
    + apply get_is_Some_keys in Hk as [? Hk].
      by rewrite get_pop_eq in Hk.
    + apply (Hd k); [|done]. by apply (keys_pop_subseteq task_id).
  - intros m Hin' Hle.
    match goal with |- m.2 ∈ ?a => change a with (achievements
      (_check_achievements_on_completion
         (mkPlanner (Dict.pop task_id (tasks (self w)))
            (Dict.set task_id (set_completed_at (Some now) t) (completed (self w)))
            (next_id (self w)) (xp (self w) + XP_PER_TASK)
            (if level (self w) <? (xp (self w) + XP_PER_TASK) / XP_TO_LEVEL + 1
             then (xp (self w) + XP_PER_TASK) / XP_TO_LEVEL + 1
             else level (self w))
            (achievements (self w))))) end.
    apply elem_of_check_achievements. right; left. by exists m.
Qed.

Lemma planner_ok_exec o w :
  planner_ok (self w) → planner_ok (self (exec o w).1).
Proof.
  intros Hok. destruct o; csimpl; try done.
  - destruct Hok as [Ht Hc Hx Hl Hb Hd Hm]. split; csimpl; try done.
    + by apply NoDup_keys_set.
    + intros k. rewrite elem_of_app, elem_of_keys_set.
      intros [[->|Hk]|Hk]; [lia| |];
        (assert (k < next_id (self w)); [apply Hb, elem_of_app; auto | lia]).
    + intros k. rewrite elem_of_keys_set. intros [->|Hk]; [|by apply Hd].
      intros Hk. assert (next_id (self w) < next_id (self w)); [|lia].
      apply Hb, elem_of_app. auto.
  - destruct Hok as [Ht Hc Hx Hl Hb Hd Hm]. op_cases; [| |by split].
    + split; csimpl; try done.
      * by apply NoDup_keys_pop.
      * intros k. rewrite elem_of_app. intros [Hk|Hk]; apply Hb, elem_of_app; auto.
        left. by apply (keys_pop_subseteq task_id).
      * intros k Hk. apply Hd. by apply (keys_pop_subseteq task_id).
    + split; csimpl; try done.
      * by apply NoDup_keys_pop.
      * intros k. rewrite elem_of_app. intros [Hk|Hk]; apply Hb, elem_of_app; auto.
        right. by apply (keys_pop_subseteq task_id).
      * intros k Hk Hk'. apply (Hd k Hk). by apply (keys_pop_subseteq task_id).
      * intros m Hin Hle. apply Hm; [done|].
        pose proof (length_pop task_id (completed (self w))). lia.
  - destruct Hok as [Ht Hc Hx Hl Hb Hd Hm].
    op_cases; split; csimpl; unfold is_dict;
      rewrite ?keys_alter, ?length_alter; done.
  - pose proof (planner_ok_complete now task_id w Hok) as H.
    by destruct (complete_task now task_id w).
Qed.

Lemma new_Planner_fresh now f w :
  f = NoFile ∨ f = Unreadable →
  new_Planner now f = Some w →
  w = {| self := default_Planner; data_file := Stored (dump default_Planner) |}.
Proof.
  intros [->| ->] Hn; vm_compute in Hn; injection Hn as <-; reflexivity.
Qed.

Lemma reachable_by_ok allowed w :
  reachable_by allowed w → planner_ok (self w) ∧ file_ok w.
Proof.
  induction 1 as [now f w Hf Hn | o w Ha _ [IHp IHf] | now w w' _ [IHp IHf] Hn].
  - apply new_Planner_fresh in Hn; [|done]. subst w. split.
    + apply planner_ok_default.
    + apply (file_ok_save default_Planner NoFile); apply NoDup_nil_2.
  - pose proof (planner_ok_exec o w IHp) as Hok. split; [done|].
    destruct (exec_file o w) as [E|E]; [by rewrite E|].
    exists (dump (self (exec o w).1)). split; [done|].
    intros now. apply load_try_dump; apply Hok.
  - destruct IHf as (doc & Hdoc & Hload).
    unfold new_Planner, load in Hn. cbn [data_file] in Hn. rewrite Hdoc in Hn.
    cbn [data_file] in Hn. rewrite Hload in Hn. injection Hn as <-.
    cbn [self data_file]. split.
    + by apply planner_ok_normalize.
    + exists doc. split; [done|]. intros now'. cbn [self].
      by rewrite normalize_idemp.
Qed.

(** ** Task ids *)

Lemma next_id_exec o w :
  next_id (self w) ≤ next_id (self (exec o w).1) ∧
  ∀ i, (exec o w).2 = RId i →
       i = next_id (self w) ∧ next_id (self (exec o w).1) = i + 1.
Proof.
  destruct o; csimpl; op_cases; csimpl; (split; [lia|]);
    try (intros; discriminate).
  by intros i [= <-].
Qed.

Lemma added_ids_bounds ops w :
  next_id (self w) ≤ next_id (self (run ops w).1) ∧
  Forall (λ i, next_id (self w) ≤ i < next_id (self (run ops w).1))
         (added_ids (run ops w).2) ∧
  StronglySorted Z.lt (added_ids (run ops w).2).
Proof.
  revert w. induction ops as [|o r IH]; intros w; csimpl.
  - split; [lia|]. split; constructor.
  - pose proof (next_id_exec o w) as [Hle Hid].
    destruct (exec o w) as [w1 v] eqn:E. csimpl in *.
    specialize (IH w1) as (IH1 & IH2 & IH3).
    destruct (run r w1) as [w2 vs] eqn:E2. csimpl in *.
    split; [lia|].
    assert (Forall (λ i, next_id (self w) ≤ i < next_id (self w2)) (added_ids vs)) as Hvs.
    { eapply Forall_impl; [exact IH2|]. csimpl. intros; lia. }
    destruct v; csimpl; try (split; assumption).
    destruct (Hid i eq_refl) as [-> Hn]. split.
    + constructor; [lia | assumption].
    + constructor; [assumption|].
      eapply Forall_impl; [exact IH2|]. csimpl. intros; lia.
Qed.

(** C3: in every session (any sequence of engine calls, from any state) the
    ids returned by the successive [add_task] calls are strictly increasing,
    so none is returned twice; no call decrements [next_id], a [delete_task]
    call included; and in a reachable state the id [add_task] returns is the
    key of no stored task. *)
Theorem added_ids_strictly_increasing :
  (∀ ops w, StronglySorted Z.lt (added_ids (run ops w).2)) ∧
  (∀ ops w, NoDup (added_ids (run ops w).2)) ∧
  (∀ o w, next_id (self w) ≤ next_id (self (exec o w).1)) ∧
  (∀ task_id w, next_id (self (delete_task task_id w).1) = next_id (self w)) ∧
  (∀ now title category due_date priority notes w,
     reachable w →
     (add_task now title category due_date priority notes w).2
       ∉ Dict.keys (tasks (self w)) ++ Dict.keys (completed (self w))).
Proof.
  assert (∀ ops w, StronglySorted Z.lt (added_ids (run ops w).2)) as HS.
  { intros ops w. apply added_ids_bounds. }
  split; [exact HS|]. split_and!.
  - intros ops w. specialize (HS ops w).
    induction HS as [|i l _ IH Hall]; constructor; [|exact IH].
    intros Hin. rewrite Forall_forall in Hall.
    specialize (Hall i Hin). lia.
  - intros o w. apply next_id_exec.
  - intros task_id w. by op_cases.
  - intros now title category due_date priority notes w Hr Hin.
    destruct (reachable_by_ok _ _ Hr) as [[_ _ _ _ Hb _ _] _].
    apply Hb in Hin. cbn in Hin. lia.
Qed.

Example ids_after_deletion :
  added_ids
    (run [Add "2024-05-01T09:00:00" "a" "General" None 3 "";
          Add "2024-05-01T09:01:00" "b" "General" None 3 "";
          Delete 2; Delete 1;
          Add "2024-05-01T09:02:00" "c" "General" None 3 ""] fresh_world).2
  = [1; 2; 3].
Proof. vm_compute. reflexivity. Qed.

(** ** Completing a pending task *)



(** ** Round trip through the data file *)

Lemma forget_ids_restore_ids d : forget_ids (restore_ids d) = forget_ids d.
Proof.
  unfold forget_ids, restore_ids. rewrite map_map. apply map_ext. by intros [k t].
Qed.

Lemma forget_ids_restore_ids_pending cs d :
  forget_ids (restore_ids_pending cs d) = forget_ids d.
Proof.
  unfold forget_ids, restore_ids_pending. rewrite map_map. apply map_ext.
  intros [k t]. csimpl. by destruct (Dict.mem k cs).
Qed.









(** With key 1 in both dictionaries the completed task carries its key and
    the pending one the id it was saved with: the state comes back as it
    was, id 5 included. *)
Example save_load_overlap :
  load "2024-05-03T07:00:00" (save overlap) = Some (save overlap) ∧
  id <$> Dict.get 1 (tasks (self overlap)) = Some (Some 5).
Proof. split; vm_compute; reflexivity. Qed.

(** ** Loading from missing or damaged storage *)

Lemma load_failure_fresh now w :
  data_file w = NoFile ∨ data_file w = Unreadable ∨
  (∃ doc e, data_file w = Stored doc ∧ load_try now doc = Raises e) →
  load now w =
    Some {| self := mkPlanner [] [] 1 0 1 ∅;
            data_file := Stored (dump (mkPlanner [] [] 1 0 1 ∅)) |}.
Proof.
  destruct w as [p f]. cbn [data_file].
  intros [->|[->|(doc & e & -> & Hr)]]; unfold load; cbn [data_file].
  - vm_compute. reflexivity.
  - reflexivity.
  - rewrite Hr. reflexivity.
Qed.

(** On a file that can be written [load_rw] is [load]. *)
Lemma load_rw_writable now w :
  load_rw true now w =
    match load now w with
    | Some w' => LoadReturns w'
    | None => LoadOutOfModel
    end.
Proof.
  destruct w as [p [| |doc]]; unfold load_rw, load, _create_default_file_rw;
    cbn [data_file]; try reflexivity.
  by destruct (load_try now doc).
Qed.

(** C7 (as the code has it): when the data file is missing, cannot be read
    or parsed, or makes the body of the [try] block raise, and the file can
    be written, [load] returns (it does not raise) with the planner reset
    to the fresh state (next_id 1, xp 0, level 1, no pending task, no
    completed task, no achievement) and with the data file holding the dump
    of that fresh state; when the file cannot be written, the [OSError] of
    the recovering [save] leaves [load]. *)
Theorem load_failure_starts_fresh now w :
  data_file w = NoFile ∨ data_file w = Unreadable ∨
  (∃ doc e, data_file w = Stored doc ∧ load_try now doc = Raises e) →
  load_rw true now w =
    LoadReturns {| self := mkPlanner [] [] 1 0 1 ∅;
                   data_file := Stored (dump (mkPlanner [] [] 1 0 1 ∅)) |} ∧
  load_rw false now w = LoadRaisesOSError.
Proof.
  intros H. split.
  - rewrite load_rw_writable. by rewrite (load_failure_fresh now w H).
  - destruct w as [p f]. cbn [data_file] in H.
    destruct H as [->|[->|(doc & e & -> & Hr)]];
      unfold load_rw, _create_default_file_rw; cbn [data_file];
      [done|done|by rewrite Hr].
Qed.

Lemma load_failure_starts_fresh_witness :
  load_rw true "2024-05-03T07:00:00" (mkWorld (self already_done) untitled_file) =
    LoadReturns {| self := mkPlanner [] [] 1 0 1 ∅;
                   data_file := Stored (dump (mkPlanner [] [] 1 0 1 ∅)) |} ∧
  load_rw false "2024-05-03T07:00:00" (mkWorld (self already_done) untitled_file) =
    LoadRaisesOSError.
Proof.
  apply load_failure_starts_fresh. right; right.
  exists (JObj [ ("next_id", JNum 2); ("xp", JNum 0); ("level", JNum 1);
                 ("achievements", JArr []);
                 ("tasks", JObj [("1", JObj [("priority", JNum 2)])]);
                 ("completed", JObj []) ]), KeyError.
  split; reflexivity.
Defined.

(** C7, refuted as stated: the data file is there but can be neither read
    nor written (a directory of that name, say); reading fails, the handler
    calls [_create_default_file], and the [OSError] of its [save] leaves
    [load]. *)
Lemma load_unwritable_raises :
  data_file (mkWorld default_Planner Unreadable) = Unreadable ∧
  load_rw false "2024-05-03T07:00:00" (mkWorld default_Planner Unreadable) =
    LoadRaisesOSError ∧
  ∀ w', load_rw false "2024-05-03T07:00:00" (mkWorld default_Planner Unreadable)
        ≠ LoadReturns w'.
Proof. split; [reflexivity|]. split; [reflexivity|]. intros w'. discriminate. Qed.

(** A file that can be read is loaded whether or not it can be written. *)
Example load_read_only now :
  load_rw false now (save already_done) = LoadReturns (save already_done).
Proof. vm_compute. reflexivity. Qed.

Example load_list_file now :
  load_try now (JArr [JNum 1; JNum 2]) = Raises AttributeError ∧
  load now (mkWorld (self already_done) list_file) =
    Some (_create_default_file (mkWorld (self already_done) list_file)).
Proof. split; reflexivity. Qed.

Example load_missing_file now :
  load now (mkWorld (self already_done) NoFile) =
    Some {| self := default_Planner;
            data_file := Stored (dump default_Planner) |}.
Proof. vm_compute. reflexivity. Qed.

(** ** Achievements *)

Lemma reachable_by_restart allowed now w w' :
  reachable_by allowed w →
  new_Planner now (data_file w) = Some w' →
  self w' = normalize (self w).
Proof.
  intros Hr Hn. destruct (reachable_by_ok _ _ Hr) as [_ (doc & Hdoc & Hload)].
  unfold new_Planner, load in Hn. cbn [data_file] in Hn. rewrite Hdoc in Hn.
  cbn [data_file] in Hn. rewrite Hload in Hn. by injection Hn as <-.
Qed.

Lemma reachable_by_run allowed ops w :
  Forall allowed ops → reachable_by allowed w →
  reachable_by allowed (run ops w).1.
Proof.
  intros Ha. revert w. induction Ha as [|o r Ho _ IH]; intros w Hr; [done|].
  cbn [run]. pose proof (reach_exec allowed o w Ho Hr) as H1.
  destruct (exec o w) as [w1 v]. specialize (IH w1 H1).
  by destruct (run r w1).
Qed.

Lemma reachable_by_fresh allowed : reachable_by allowed fresh_world.
Proof. by apply (reach_fresh allowed "" NoFile); [left|]. Qed.

Lemma milestone_names m m' :
  m ∈ milestones → m' ∈ milestones → m.2 = m'.2 → m = m'.
Proof.
  unfold milestones. intros H H'.
  repeat (apply elem_of_cons in H as [->|H]);
    repeat (apply elem_of_cons in H' as [->|H']);
    try done; by apply elem_of_nil in H || by apply elem_of_nil in H'.
Qed.

Lemma milestone_not_level m :
  m ∈ milestones → m.2 ≠ "Level 2 Achieved" ∧ m.2 ≠ "Level 5 Achieved".
Proof.
  unfold milestones. intros H. elem_cases H; done.
Qed.

Lemma completed_check_achievements p :
  completed (_check_achievements_on_completion p) = completed p.
Proof. reflexivity. Qed.

Lemma earned_only_exec o w :
  ¬ is_delete o → earned_only (self w) → earned_only (self (exec o w).1).
Proof.
  intros Hnd He. destruct o; csimpl; try done.
  - unfold edit_task. destruct (get_task task_id (self w)); [|done].
    destruct (Dict.mem task_id (tasks (self w))); [done|].
    intros m Hin Hm. csimpl in *. rewrite length_alter. by apply He.
  - unfold complete_task.
    destruct (Dict.get task_id (tasks (self w))) as [t|]; [|done].
    intros m Hin Hm. cbn [fst self save] in *.
    apply elem_of_check_achievements in Hm.
    rewrite completed_check_achievements.
    cbn [completed achievements level] in *.
    destruct Hm as [Hm|[(m' & Hin' & Hle & E)|[[_ E]|[_ E]]]].
    + specialize (He m Hin Hm).
      pose proof (length_set task_id (set_completed_at (Some now) t)
                    (completed (self w))). lia.
    + by rewrite (milestone_names m m' Hin Hin' E).
    + by apply milestone_not_level in Hin as [? ?].
    + by apply milestone_not_level in Hin as [? ?].
Qed.

Lemma earned_only_reachable w :
  reachable_by (λ o, ¬ is_delete o) w → earned_only (self w).
Proof.
  induction 1 as [now f w Hf Hn | o w Ha _ IH | now w w' Hr IH Hn].
  - apply new_Planner_fresh in Hn; [|done]. subst w.
    intros m _ Hm. cbn in Hm. by apply elem_of_empty in Hm.
  - by apply earned_only_exec.
  - rewrite (reachable_by_restart _ _ _ _ Hr Hn).
    intros m Hin Hm. cbn in *. unfold restore_ids. rewrite length_map.
    by apply IH.
Qed.

Lemma achievements_exec o w :
  achievements (self w) ⊆ achievements (self (exec o w).1).
Proof.
  destruct o; csimpl; op_cases; try done.
  intros x Hx. apply elem_of_check_achievements. by left.
Qed.

(** C5 (as the code has it): in every reachable state each milestone whose
    threshold (1, 5, 10, 25) the number of completed tasks has reached is
    held under its name ("First Task Done", "Getting Serious",
    "Study Machine", "Legendary Studier"); as long as no task has been
    deleted, a milestone is held exactly when the number of completed tasks
    has reached its threshold; and no engine call, a deletion included, nor
    a restart removes a name from the achievements. *)
Theorem milestones_held :
  (∀ w k name,
     reachable w →
     (k, name) ∈ [ (1, "First Task Done"); (5, "Getting Serious");
                   (10, "Study Machine"); (25, "Legendary Studier") ] →
     k ≤ Z.of_nat (length (completed (self w))) →
     name ∈ achievements (self w)) ∧
  (∀ w k name,
     reachable_by (λ o, ¬ is_delete o) w →
     (k, name) ∈ [ (1, "First Task Done"); (5, "Getting Serious");
                   (10, "Study Machine"); (25, "Legendary Studier") ] →
     (name ∈ achievements (self w) ↔
      k ≤ Z.of_nat (length (completed (self w))))) ∧
  (∀ o w, achievements (self w) ⊆ achievements (self (exec o w).1)) ∧
  (∀ now w w',
     reachable w → new_Planner now (data_file w) = Some w' →
     achievements (self w') = achievements (self w)).
Proof.
  split_and!.
  - intros w k name Hr Hin Hle.
    destruct (reachable_by_ok _ _ Hr) as [[_ _ _ _ _ _ Hm] _].
    by apply (Hm (k, name)).
  - intros w k name Hr Hin. split.
    + intros Hm. by apply (earned_only_reachable w Hr (k, name)).
    + intros Hle. destruct (reachable_by_ok _ _ Hr) as [[_ _ _ _ _ _ Hm] _].
      by apply (Hm (k, name)).
  - apply achievements_exec.
  - intros now w w' Hr Hn. by rewrite (reachable_by_restart _ _ _ _ Hr Hn).
Qed.

(** C5, refuted as stated: after five completions, the deletion of two
    completed tasks and one more completion, the completed dictionary holds
    four tasks and "Getting Serious" is held; and after four completions,
    the deletion of the four completed tasks and a fifth completion,
    "Getting Serious" is not held. *)
Lemma milestone_held_below_threshold :
  (reachable after_deletions ∧
   ∃ w, after_deletions = (complete_task "2024-05-03T09:00:00" 6 w).1 ∧
        (complete_task "2024-05-03T09:00:00" 6 w).2.1 = true ∧
        ¬ ("Getting Serious" ∈ achievements (self after_deletions) ↔
           5 ≤ Z.of_nat (length (completed (self after_deletions))))) ∧
  (reachable (run emptied_session fresh_world).1 ∧
   completions (run emptied_session fresh_world).2 = 5%nat ∧
   length (completed (self (run emptied_session fresh_world).1)) = 1%nat ∧
   "Getting Serious" ∉ achievements (self (run emptied_session fresh_world).1)).
Proof.
  split; split.
  - apply reachable_by_run; [|apply reachable_by_fresh].
    by apply Forall_forall.
  - exists (run (take 13 deletions_session) fresh_world).1.
    split; [vm_compute; reflexivity|]. split; [reflexivity|].
    intros [H _].
    assert (5 ≤ Z.of_nat (length (completed (self after_deletions)))) as Hle.
    { apply H. apply (bool_decide_unpack _). vm_compute. exact I. }
    vm_compute in Hle. by apply Hle.
  - apply reachable_by_run; [|apply reachable_by_fresh].
    by apply Forall_forall.
  - split; [reflexivity|]. split; [reflexivity|].
    apply (bool_decide_unpack _). vm_compute. exact I.
Qed.

(** ** Listing *)

Section sort_facts.
Context {A : Type}.

Lemma insert_sorted_perm (x : Z * A) l : Permutation (insert_sorted Z.leb x l) (x :: l).
Proof.
  induction l as [|y r IH]; csimpl; [done|].
  destruct (x.1 <=? y.1); [done|].
  rewrite IH. apply perm_swap.
Qed.

Lemma stable_sort_perm (l : list (Z * A)) : Permutation (stable_sort Z.leb l) l.
Proof.
  induction l as [|x r IH]; csimpl; [done|].
  rewrite insert_sorted_perm. by constructor.
Qed.

Lemma insert_sorted_sorted (x : Z * A) l :
  StronglySorted (λ a b, a.1 ≤ b.1) l →
  StronglySorted (λ a b, a.1 ≤ b.1) (insert_sorted Z.leb x l).
Proof.
  induction 1 as [|y r Hs IH Hall]; csimpl.
  - repeat constructor.
  - destruct (Z.leb_spec x.1 y.1).
    + constructor; [by constructor|].
      constructor; [done|]. eapply Forall_impl; [exact Hall|].
      csimpl. intros; lia.
    + constructor; [done|].
      rewrite insert_sorted_perm. constructor; [lia | done].
Qed.

Lemma stable_sort_sorted (l : list (Z * A)) :
  StronglySorted (λ a b, a.1 ≤ b.1) (stable_sort Z.leb l).
Proof.
  induction l as [|x r IH]; csimpl; [constructor|].
  by apply insert_sorted_sorted.
Qed.

Lemma decorate_total (key : A → outcome Z) (k : A → Z) (l : list A) :
  (∀ x, x ∈ l → key x = Ok (k x)) →
  decorate key l = Ok (map (λ x, (k x, x)) l).
Proof.
  induction l as [|x r IH]; intros H; csimpl; [done|].
  rewrite (H x) by left. csimpl. rewrite IH; [done|].
  intros y Hy. apply H. by right.
Qed.

Lemma sorted_by_key (k : A → Z) (kl : list (Z * A)) :
  Forall (λ p, p.1 = k p.2) kl →
  StronglySorted (λ a b, a.1 ≤ b.1) kl →
  StronglySorted (λ a b, k a ≤ k b) kl.*2.
Proof.
  intros Hk Hs. induction Hs as [|p r Hs IH Hall]; csimpl; [constructor|].
  apply Forall_cons in Hk as [Hp Hk]. constructor; [by apply IH|].
  apply Forall_fmap. rewrite Forall_forall in Hall, Hk |- *.
  intros q Hq. csimpl. rewrite <- Hp, <- (Hk q Hq). by apply Hall.
Qed.

Lemma list_sort_total (key : A → outcome Z) (k : A → Z) (l : list A) :
  (∀ x, x ∈ l → key x = Ok (k x)) →
  ∃ l', list_sort Z.leb key l = Ok l' ∧ Permutation l' l ∧
        StronglySorted (λ a b, k a ≤ k b) l'.
Proof.
  intros H. unfold list_sort. rewrite (decorate_total key k l H). csimpl.
  eexists. split; [done|]. split.
  - rewrite stable_sort_perm. clear H.
    induction l; csimpl; by constructor.
  - apply sorted_by_key; [|apply stable_sort_sorted].
    rewrite stable_sort_perm. apply Forall_map, Forall_forall. done.
Qed.

End sort_facts.

Lemma valid_date_bounds y m d :
  valid_date y m d = true → 1 ≤ y ≤ 9999 ∧ 1 ≤ m ≤ 12 ∧ 1 ≤ d ≤ 31.
Proof.
  unfold valid_date, days_in_month. rewrite !andb_true_iff, !Z.leb_le.
  intros [[[[[? ?] ?] ?] ?] Hd].
  destruct (m =? 2); [destruct (is_leap y)|destruct (_ || _)]; lia.
Qed.

Lemma datetime_of_valid_lt_max y m d :
  valid_date y m d = true → datetime_of y m d 0 < datetime_max.
Proof.
  intros H. apply valid_date_bounds in H. unfold datetime_max, datetime_of. lia.
Qed.

(** The number yyyymmdd orders valid dates as the calendar does. *)
Lemma due_day_calendar_order y m d y' m' d' :
  valid_date y m d = true → valid_date y' m' d' = true →
  (y * 10000 + m * 100 + d ≤ y' * 10000 + m' * 100 + d' ↔
   y < y' ∨ (y = y' ∧ (m < m' ∨ (m = m' ∧ d ≤ d')))).
Proof.
  intros H H'. apply valid_date_bounds in H, H'. lia.
Qed.

Lemma due_key_valid items x :
  due_dates_valid items → x ∈ items → due_key x = Ok (due_val x).
Proof.
  intros Hv Hx. unfold due_key, due_val.
  destruct (due_date x.2) as [d|] eqn:E; [|done]. csimpl.
  destruct (Hv x d Hx E) as (y & m & dd & Hp & Hvd).
  destruct (String.eqb_spec d "") as [->|_]; [discriminate Hp|].
  unfold fromisoformat. by rewrite Hp, Hvd.
Qed.

Lemma due_val_dated items x :
  due_dates_valid items → x ∈ items →
  (is_Some (due_date x.2) → due_val x = due_day x * 100000000000 ∧ due_val x < datetime_max) ∧
  (due_date x.2 = None → due_val x = datetime_max).
Proof.
  intros Hv Hx. unfold due_val, due_day. split.
  - intros [d E]. rewrite E. csimpl.
    destruct (Hv x d Hx E) as (y & m & dd & -> & Hvd). split.
    + unfold datetime_of. lia.
    + by apply datetime_of_valid_lt_max.
  - by intros ->.
Qed.

Lemma sorted_split {A} (k : A → Z) (M : Z) (l : list A) :
  StronglySorted (λ a b, k a ≤ k b) l →
  Forall (λ a, k a ≤ M) l →
  ∃ l1 l2, l = l1 ++ l2 ∧ Forall (λ a, k a < M) l1 ∧ Forall (λ a, k a = M) l2 ∧
           StronglySorted (λ a b, k a ≤ k b) l1.
Proof.
  induction 1 as [|x r Hs IH Hall]; intros Hle.
  - exists [], []. repeat split; constructor.
  - apply Forall_cons in Hle as [Hx Hle].
    destruct (decide (k x < M)) as [Hlt|Hge].
    + destruct (IH Hle) as (l1 & l2 & -> & H1 & H2 & H3).
      exists (x :: l1), l2. split; [done|]. split; [by constructor|].
      split; [done|]. constructor; [done|].
      apply Forall_app in Hall as [Hall _]. done.
    + exists [], (x :: r). split; [done|]. split; [constructor|].
      split; [|constructor]. constructor; [lia|].
      rewrite Forall_forall in Hall, Hle |- *. intros y Hy.
      specialize (Hall y Hy). specialize (Hle y Hy). lia.
Qed.

Lemma view_tasks_unfold sc sb p :
  view_tasks sc sb p =
    let sort_by := default "priority" sb in
    if String.eqb sort_by "priority" then
      list_sort Z.leb (λ x, Ok (priority x.2)) (shown sc p)
    else if String.eqb sort_by "due" then
      list_sort Z.leb due_key (shown sc p)
    else list_sort Z.leb (λ x, Ok x.1) (shown sc p).
Proof.
  unfold view_tasks, shown. csimpl.
  destruct (if default false sc then completed p else tasks p); [|done].
  by repeat case_match.
Qed.

(** C8 (as the code has it): [view_tasks] returns the tasks of the chosen
    dictionary, with sort_by="priority" in non-decreasing priority; with
    sort_by="due", provided every due date that is set is a valid date
    'YYYY-MM-DD', the tasks with a due date in ascending date order followed
    by the tasks without one; with sort_by="id" or any other unrecognised
    value in ascending id order.  When sort_by is omitted the default is
    "priority", and the order is the priority order. *)
Theorem view_tasks_order sc p :
  (∃ l, view_tasks sc (Some "priority") p = Ok l ∧
        Permutation l (shown sc p) ∧
        StronglySorted (λ a b, priority a.2 ≤ priority b.2) l) ∧
  (due_dates_valid (shown sc p) →
   ∃ dated undated,
     view_tasks sc (Some "due") p = Ok (dated ++ undated) ∧
     Permutation (dated ++ undated) (shown sc p) ∧
     Forall (λ x, is_Some (due_date x.2)) dated ∧
     Forall (λ x, due_date x.2 = None) undated ∧
     StronglySorted (λ a b, due_day a ≤ due_day b) dated) ∧
  (∀ sort_by, sort_by ≠ "priority" → sort_by ≠ "due" →
   ∃ l, view_tasks sc (Some sort_by) p = Ok l ∧
        Permutation l (shown sc p) ∧
        StronglySorted (λ a b, a.1 ≤ b.1) l) ∧
  view_tasks sc None p = view_tasks sc (Some "priority") p.
Proof.
  split_and!.
  - rewrite view_tasks_unfold. csimpl.
    apply (list_sort_total _ (λ x, priority x.2)). done.
  - intros Hv. rewrite view_tasks_unfold. csimpl.
    destruct (list_sort_total due_key due_val (shown sc p))
      as (l & -> & Hperm & Hs).
    { intros x Hx. by apply (due_key_valid (shown sc p)). }
    assert (∀ x, x ∈ l → x ∈ shown sc p) as Hin.
    { intros x Hx. by rewrite <- Hperm. }
    destruct (sorted_split due_val datetime_max l Hs)
      as (l1 & l2 & -> & H1 & H2 & H3).
    { apply Forall_forall. intros x Hx.
      destruct (due_val_dated _ x Hv (Hin x Hx)) as [Hd Hn].
      destruct (due_date x.2) as [d|] eqn:E.
      - destruct Hd as [_ ?]; [by eexists | lia].
      - rewrite Hn; [lia | done]. }
    exists l1, l2. split; [done|]. split; [done|].
    assert (∀ x, x ∈ l1 → is_Some (due_date x.2)) as Hd1.
    { intros x Hx. rewrite Forall_forall in H1. specialize (H1 x Hx).
      destruct (due_val_dated _ x Hv (Hin x ltac:(set_solver))) as [_ Hn].
      destruct (due_date x.2) as [d|]; [by eexists|].
      rewrite Hn in H1; [lia | done]. }
    split_and!.
    + by apply Forall_forall.
    + apply Forall_forall. intros x Hx.
      rewrite Forall_forall in H2. specialize (H2 x Hx).
      destruct (due_val_dated _ x Hv (Hin x ltac:(set_solver))) as [Hd _].
      destruct (due_date x.2) as [d|]; [|done].
      destruct Hd as [_ ?]; [by eexists | lia].
    + assert (Forall (λ x, due_val x = due_day x * 100000000000) l1) as Hk.
      { apply Forall_forall. intros x Hx.
        by apply (due_val_dated _ x Hv (Hin x ltac:(set_solver))), Hd1. }
      clear -H3 Hk. induction H3 as [|x r Hs IH Hall]; [constructor|].
      apply Forall_cons in Hk as [Hx Hk]. constructor; [by apply IH|].
      rewrite Forall_forall in Hall, Hk |- *. intros y Hy.
      specialize (Hall y Hy). rewrite Hx, (Hk y Hy) in Hall. lia.
  - intros sort_by N1 N2. rewrite view_tasks_unfold. csimpl.
    destruct (String.eqb_spec sort_by "priority"); [done|].
    destruct (String.eqb_spec sort_by "due"); [done|].
    apply (list_sort_total _ (λ x, x.1)). done.
  - done.
Qed.

(** C8, refuted as stated: with sort_by omitted, task 2 (priority 1) is
    listed before task 1 (priority 5), so the default order is not the id
    order; and with sort_by="due" a due date that is not a date makes the
    call raise [ValueError]. *)
Lemma view_tasks_default_not_by_id :
  (listed_ids (view_tasks None None (self two_priorities)) = Ok [2; 1] ∧
   listed_ids (view_tasks None (Some "id") (self two_priorities)) = Ok [1; 2]) ∧
  view_tasks None (Some "due") (self vague_due) = Raises ValueError.
Proof. vm_compute. done. Qed.

(** ** Searching *)

Lemma append_cons x (a b : string) :
  (String x a ++ b)%string = String x (a ++ b)%string.
Proof. reflexivity. Qed.

Lemma lower_append a b : lower (a ++ b)%string = (lower a ++ lower b)%string.
Proof.
  induction a as [|x a IH]; [done|].
  rewrite append_cons. cbn [lower]. by rewrite IH.
Qed.

Lemma lower_split s a' b' :
  lower s = (a' ++ b')%string →
  ∃ a b, s = (a ++ b)%string ∧ lower a = a' ∧ lower b = b'.
Proof.
  revert s. induction a' as [|x a' IH]; intros s E.
  - by exists "", s.
  - rewrite append_cons in E.
    destruct s as [|y s]; [discriminate E|]. cbn [lower] in E.
    injection E as Hx E. destruct (IH s E) as (a & b & -> & Ha & Hb).
    exists (String y a), b. rewrite append_cons. cbn [lower].
    by rewrite Hx, Ha.
Qed.

Lemma is_prefix_spec p s :
  is_prefix p s = true ↔ ∃ post, s = (p ++ post)%string.
Proof.
  revert s. induction p as [|a p IH]; intros s; cbn [is_prefix].
  - split; [by exists s | done].
  - destruct s as [|b s].
    + split; [done | by intros [post ?]].
    + rewrite andb_true_iff, Ascii.eqb_eq, IH. split.
      * intros [-> [post ->]]. by exists post.
      * intros [post E]. rewrite append_cons in E. injection E as -> ->.
        split; [done | by exists post].
Qed.

Lemma contains_spec kw s :
  contains kw s = true ↔ ∃ pre post, s = (pre ++ kw ++ post)%string.
Proof.
  induction s as [|c s IH]; cbn [contains]; rewrite orb_true_iff, is_prefix_spec.
  - split.
    + intros [[post ->]|?]; [|done]. by exists "", post.
    + intros (pre & post & E). left. destruct pre; [by exists post|done].
  - rewrite IH. split.
    + intros [[post ->]|(pre & post & ->)]; [by exists "", post|].
      by exists (String c pre), post.
    + intros (pre & post & E). destruct pre as [|c' pre].
      * left. by exists post.
      * right. rewrite append_cons in E. injection E as -> ->.
        by exists pre, post.
Qed.

Lemma N_of_lower_char c :
  N_of_ascii (lower_char c) =
    (if ((65 <=? N_of_ascii c) && (N_of_ascii c <=? 90))%N
     then N_of_ascii c + 32 else N_of_ascii c)%N.
Proof.
  unfold lower_char. cbn zeta.
  destruct ((65 <=? N_of_ascii c)%N && (N_of_ascii c <=? 90)%N) eqn:E; [|done].
  apply andb_true_iff in E as [_ E%N.leb_le].
  apply N_ascii_embedding. lia.
Qed.

Lemma lower_char_same a b : lower_char a = lower_char b ↔ same_letter a b.
Proof.
  unfold same_letter. cbn zeta. split.
  - intros E%(f_equal N_of_ascii). rewrite !N_of_lower_char in E.
    destruct (N.leb_spec 65 (N_of_ascii a)), (N.leb_spec (N_of_ascii a) 90),
             (N.leb_spec 65 (N_of_ascii b)), (N.leb_spec (N_of_ascii b) 90);
      cbn [andb] in E; lia.
  - intros H.
    rewrite <- (ascii_N_embedding (lower_char a)),
            <- (ascii_N_embedding (lower_char b)).
    f_equal. rewrite !N_of_lower_char.
    destruct (N.leb_spec 65 (N_of_ascii a)), (N.leb_spec (N_of_ascii a) 90),
             (N.leb_spec 65 (N_of_ascii b)), (N.leb_spec (N_of_ascii b) 90);
      cbn [andb]; lia.
Qed.

Lemma lower_eq_iff s t : lower s = lower t ↔ eq_ignoring_case s t.
Proof.
  revert t. induction s as [|a s IH]; intros [|b t];
    cbn [lower eq_ignoring_case]; [done|done|done|].
  rewrite <- IH, <- lower_char_same. split.
  - by intros [= -> ->].
  - by intros [-> ->].
Qed.

Lemma contains_lower kw s :
  contains (lower kw) (lower s) = true ↔ ci_substring kw s.
Proof.
  rewrite contains_spec. unfold ci_substring. split.
  - intros (pre' & post' & E).
    apply lower_split in E as (pre & r & -> & _ & E).
    apply lower_split in E as (mid & post & -> & E & _).
    exists pre, mid, post. by rewrite <- lower_eq_iff.
  - intros (pre & mid & post & -> & E%lower_eq_iff).
    exists (lower pre), (lower post). by rewrite !lower_append, E.
Qed.

Lemma matches_ascii kw (kt : Z * Task) :
  ascii_task kt →
  matches kw kt.2 =
    Ok (contains kw (lower (title kt.2)) || contains kw (lower (notes kt.2))
        || contains kw (lower (category kt.2))).
Proof.
  intros (H1 & H2 & H3). unfold matches, in_lowered, py_lower.
  rewrite H1, H2, H3. cbn [obind].
  by destruct (contains kw (lower (title kt.2))),
              (contains kw (lower (notes kt.2))).
Qed.

Lemma search_items_ascii kw d :
  Forall ascii_task d →
  search_items kw d =
    Ok (filter (λ kt, contains kw (lower (title kt.2))
                      || contains kw (lower (notes kt.2))
                      || contains kw (lower (category kt.2)) = true) d).
Proof.
  induction 1 as [|kt r Hkt _ IH]; [done|].
  cbn [search_items]. rewrite matches_ascii, IH by done. cbn [obind].
  rewrite filter_cons.
  destruct (contains kw (lower (title kt.2)) || contains kw (lower (notes kt.2))
            || contains kw (lower (category kt.2))) eqn:E.
  - by rewrite decide_True.
  - by rewrite decide_False.
Qed.

Lemma search_tasks_ascii keyword p :
  is_ascii keyword = true → ascii_planner p →
  search_tasks keyword p =
    Ok (filter (λ kt, contains (lower keyword) (lower (title kt.2))
                      || contains (lower keyword) (lower (notes kt.2))
                      || contains (lower keyword) (lower (category kt.2)) = true)
               (tasks p ++ completed p)).
Proof.
  intros Hk [Ht Hc]. unfold search_tasks, py_lower. rewrite Hk. cbn [obind].
  rewrite !search_items_ascii by done. cbn [obind]. by rewrite filter_app.
Qed.

(** C9 (as the code has it): for an ASCII keyword and tasks whose title,
    notes and category are ASCII text, [search_tasks] returns exactly the
    (id, task) pairs of the pending and the completed dictionary whose
    title, notes or category contains the keyword when letter case is
    ignored; pending matches come first, each group in dictionary order. *)
Theorem search_tasks_exact keyword p :
  is_ascii keyword = true → ascii_planner p →
  ∃ found, search_tasks keyword p = Ok found ∧
    (∀ x, x ∈ found ↔
          (x ∈ tasks p ∨ x ∈ completed p) ∧
          (ci_substring keyword (title x.2) ∨ ci_substring keyword (notes x.2) ∨
           ci_substring keyword (category x.2))) ∧
    sublist found (tasks p ++ completed p).
Proof.
  intros Hk Hp. eexists. split; [by apply search_tasks_ascii|]. split.
  - intros x. rewrite list_elem_of_filter, elem_of_app.
    rewrite !orb_true_iff, !contains_lower. tauto.
  - apply sublist_filter.
Qed.

Lemma search_tasks_exact_witness :
  ∃ found, search_tasks "STUDY" (self algebra_world) = Ok found ∧
    (∀ x, x ∈ found ↔
          (x ∈ tasks (self algebra_world) ∨ x ∈ completed (self algebra_world)) ∧
          (ci_substring "STUDY" (title x.2) ∨ ci_substring "STUDY" (notes x.2) ∨
           ci_substring "STUDY" (category x.2))) ∧
    sublist found (tasks (self algebra_world) ++ completed (self algebra_world)).
Proof.
  apply search_tasks_exact.
  - reflexivity.
  - split; vm_compute; repeat constructor.
Defined.

(** C9, refuted as stated: the keyword is the capital sigma and the title
    of the pending task ends in that very letter, so the title contains the
    keyword even as it is written; [search_tasks] finds nothing, because
    [str.lower] turns the sigma that ends the title into the final small
    sigma and the keyword into the other small sigma. *)
Lemma search_tasks_misses_sigma :
  (∃ t, get_task 1 (self odos_world) = Some t ∧ title t = "ΟΔΟΣ" ∧
        substring "Σ" (title t)) ∧
  py_lower "ΟΔΟΣ" = Ok "οδος" ∧ py_lower "Σ" = Ok "σ" ∧
  search_tasks "Σ" (self odos_world) = Ok [].
Proof.
  split.
  - eexists. split; [reflexivity|]. split; [reflexivity|].
    exists "ΟΔΟ", "". reflexivity.
  - split; [reflexivity|]. split; [reflexivity|]. vm_compute. reflexivity.
Qed.

Example search_algebra :
  listed_ids (search_tasks "algebra" (self algebra_world)) = Ok [1; 3] ∧
  listed_ids (search_tasks "STUDY" (self algebra_world)) = Ok [1; 3] ∧
  listed_ids (search_tasks "laund" (self algebra_world)) = Ok [2] ∧
  listed_ids (search_tasks "physics" (self algebra_world)) = Ok [].
Proof. vm_compute. done. Qed.

Example py_lower_samples :
  py_lower "Linear ALGEBRA sheet" = Ok "linear algebra sheet" ∧
  py_lower "ΣΟΦΟΣ" = Ok "σοφος" ∧
  py_lower "ΣΣ" = Ok "σς" ∧
  py_lower "ΑΣΑ" = Ok "ασα" ∧
  py_lower "ΑΒΓΔΕΖΗΘΙΚΛΜΝΞΟΠΡΣΤΥΦΧΨΩ" = Ok "αβγδεζηθικλμνξοπρστυφχψω" ∧
  py_lower "École" = Untyped ∧
  listed_ids (search_tasks "ΟΔΟΣ" (self odos_world)) = Ok [1] ∧
  listed_ids (search_tasks "ΟΔ" (self odos_world)) = Ok [1].
Proof. vm_compute. done. Qed.

(** ** Scenarios *)

Example scenario_first_completion :
  (run [Add "2024-05-01T09:00:00" "Read Ch.1" "General" None 3 "";
        Complete "2024-05-01T09:30:00" 1; Stats] fresh_world).2 =
  [ RId 1;
    RCompleted (true, Info (mkCompletion 20 false 0));
    RStats (mkStats 0 1 1 20 1 ["First Task Done"]) ].
Proof. vm_compute. reflexivity. Qed.

Example scenario_five_completions :
  stats_summary (self five_done) =
    mkStats 0 5 5 100 2
            ["First Task Done"; "Getting Serious"; "Level 2 Achieved"].
Proof. vm_compute. reflexivity. Qed.

Example scenario_delete_unknown :
  delete_task 999 fresh_world = (fresh_world, None).
Proof. vm_compute. reflexivity. Qed.

Example scenario_sort_by_due :
  due_dates_valid (tasks (self with_due_dates)) ∧
  listed_ids (view_tasks None (Some "due") (self with_due_dates)) = Ok [4; 3; 1; 2] ∧
  listed_ids (view_tasks None (Some "priority") (self with_due_dates)) = Ok [3; 4; 1; 2] ∧
  listed_ids (view_tasks None (Some "created") (self with_due_dates)) = Ok [1; 2; 3; 4].
Proof.
  split; [|vm_compute; done].
  intros x d Hx Hd. vm_compute in Hx.
  repeat (apply elem_of_cons in Hx as [->|Hx]);
    try (by apply elem_of_nil in Hx);
    vm_compute in Hd; try discriminate Hd;
    injection Hd as <-; eexists _, _, _; split; vm_compute; reflexivity.
Qed.

Example fromisoformat_samples :
  fromisoformat "2024-02-29" = Ok (datetime_of 2024 2 29 0) ∧
  fromisoformat "2023-02-29" = Raises ValueError ∧
  fromisoformat "2024-13-01" = Raises ValueError ∧
  fromisoformat "tomorrow" = Raises ValueError ∧
  fromisoformat "2024-05-01T10:00" = Untyped.
Proof. vm_compute. done. Qed.

Example py_int_samples :
  py_int "12" = Ok 12 ∧ py_int "-3" = Ok (-3) ∧ py_int "0" = Ok 0 ∧
  py_int "x1" = Raises ValueError ∧ py_int "007" = Untyped.
Proof. vm_compute. done. Qed.

(** * Further properties of the engine *)

(** ** More on dictionaries *)

Section dict_more.
Context {K : Type} `{EqDecision K} {V : Type}.
Implicit Types (k : K) (v : V) (d : list (K * V)).

Lemma pop_notin k d : k ∉ Dict.keys d → Dict.pop k d = d.
Proof.
  unfold Dict.keys. induction d as [|[k' v'] r IH]; csimpl; [done|].
  rewrite not_elem_of_cons. intros [N Hk].
  rewrite decide_False by done. by rewrite IH.
Qed.

Lemma pop_app_last k v d : k ∉ Dict.keys d → Dict.pop k (d ++ [(k, v)]) = d.
Proof.
  unfold Dict.keys. induction d as [|[k' v'] r IH]; csimpl.
  - intros _. by rewrite decide_True.
  - rewrite not_elem_of_cons. intros [N Hk].
    rewrite decide_False by done. by rewrite IH.
Qed.

Lemma length_pop_mem k d :
  k ∈ Dict.keys d → S (length (Dict.pop k d)) = length d.
Proof.
  unfold Dict.keys. induction d as [|[k' v'] r IH]; csimpl.
  - intros H. by apply elem_of_nil in H.
  - intros H. destruct (decide (k = k')) as [->|N]; [done|]. csimpl.
    apply elem_of_cons in H as [?|H]; [done|]. by rewrite IH.
Qed.

Lemma elem_of_keys_pop k k' d :
  NoDup (Dict.keys d) →
  k' ∈ Dict.keys (Dict.pop k d) ↔ k' ∈ Dict.keys d ∧ k' ≠ k.
Proof.
  intros ND. split.
  - intros Hin. split; [by apply (keys_pop_subseteq k)|].
    intros ->. apply get_is_Some_keys in Hin as [? Hin].
    by rewrite get_pop_eq in Hin.
  - intros [Hin N]. apply get_is_Some_keys.
    rewrite get_pop_ne by done. by apply get_is_Some_keys.
Qed.

Lemma Forall_pop (P : K * V → Prop) k d : Forall P d → Forall P (Dict.pop k d).
Proof.
  induction 1 as [|[k' v'] r Hx Hr IH]; csimpl; [done|].
  destruct (decide (k = k')); [done|]. by constructor.
Qed.

Lemma Forall_set (P : K * V → Prop) k v d :
  P (k, v) → Forall P d → Forall P (Dict.set k v d).
Proof.
  intros Hv. induction 1 as [|[k' v'] r Hx Hr IH]; csimpl.
  - by repeat constructor.
  - destruct (decide (k = k')); by constructor.
Qed.

Lemma Forall_alter (P : K * V → Prop) (f : V → V) k d :
  (∀ k' v', P (k', v') → P (k', f v')) →
  Forall P d → Forall P (Dict.alter f k d).
Proof.
  intros Hf. induction 1 as [|[k' v'] r Hx Hr IH]; csimpl; [done|].
  destruct (decide (k = k')); constructor; auto.
Qed.
End dict_more.

(** ** Induction over the states of a dataset's life *)

Lemma reachable_planner_ind (P : Planner → Prop) :
  P default_Planner →
  (∀ p, planner_ok p → P p → P (normalize p)) →
  (∀ o w, planner_ok (self w) → P (self w) → P (self (exec o w).1)) →
  ∀ w, reachable w → P (self w).
Proof.
  intros Hd Hn He w Hr.
  induction Hr as [now f w Hf Hl | o w _ Hr IH | now w w' Hr IH Hl].
  - apply new_Planner_fresh in Hl; [|done]. by subst w.
  - apply He; [|done]. by apply (reachable_by_ok _ _ Hr).
  - rewrite (reachable_by_restart _ _ _ _ Hr Hl).
    apply Hn; [|done]. by apply (reachable_by_ok _ _ Hr).
Qed.

Lemma level_le_complete now task_id w :
  level (self w) ≤ level (self (complete_task now task_id w).1).
Proof.
  rewrite level_complete_task. csimpl.
  destruct (Dict.mem _ _ && _) eqn:C; [|lia].
  apply andb_true_iff in C as [_ C]. lia.
Qed.

Lemma achievements_complete x now task_id t w :
  Dict.get task_id (tasks (self w)) = Some t →
  x ∈ achievements (self (complete_task now task_id w).1) ↔
  x ∈ achievements (self w) ∨
  (∃ m, m ∈ milestones ∧
        m.1 ≤ Z.of_nat (length (completed (self (complete_task now task_id w).1))) ∧
        x = m.2) ∨
  (2 ≤ level (self (complete_task now task_id w).1) ∧ x = "Level 2 Achieved") ∨
  (5 ≤ level (self (complete_task now task_id w).1) ∧ x = "Level 5 Achieved").
Proof.
  intros E. unfold complete_task. rewrite E. cbn [fst self save].
  by rewrite elem_of_check_achievements.
Qed.

(** ** XP, level and awards *)

Lemma xp_exec o w :
  xp (self (exec o w).1) =
    xp (self w) + (if completed_ok (exec o w).2 then XP_PER_TASK else 0).
Proof. destruct o; csimpl; op_cases; csimpl; lia. Qed.

(** X1: over any session, from any state, the xp at the end is the xp at
    the start plus 20 for each [complete_task] call that returned the
    success flag; no other call changes it. *)
Theorem xp_accounting ops w :
  xp (self (run ops w).1) =
    xp (self w) + 20 * Z.of_nat (completions (run ops w).2).
Proof.
  revert w. induction ops as [|o r IH]; intros w; cbn [run].
  - csimpl. lia.
  - pose proof (xp_exec o w) as Hx. destruct (exec o w) as [w1 v].
    specialize (IH w1). destruct (run r w1) as [w2 vs].
    cbn [fst snd] in *. rewrite IH, Hx. unfold XP_PER_TASK.
    destruct v as [| | | |[[] ?]| |]; csimpl; lia.
Qed.

Lemma xp_multiple_of_award w : reachable w → xp (self w) mod 20 = 0.
Proof.
  revert w. apply (reachable_planner_ind (λ p, xp p mod 20 = 0)); [done|done|].
  intros o w _ IH. rewrite xp_exec. unfold XP_PER_TASK.
  destruct (completed_ok _); [|by rewrite Z.add_0_r].
  rewrite Z.add_mod, IH by lia. done.
Qed.

(** X2: in every reachable state the xp is a non-negative multiple of 20,
    the stored level is [xp // 100 + 1], and the level is at least 1. *)
Theorem counters_invariant w :
  reachable w →
  0 ≤ xp (self w) ∧ xp (self w) mod 20 = 0 ∧
  level (self w) = xp (self w) / 100 + 1 ∧ 1 ≤ level (self w).
Proof.
  intros Hr. destruct (reachable_by_ok _ _ Hr) as [[_ _ Hx Hl _ _ _] _].
  change XP_TO_LEVEL with 100 in Hl.
  split_and!; [done|by apply xp_multiple_of_award|done|].
  rewrite Hl. assert (0 ≤ xp (self w) / 100) by (apply Z.div_pos; lia). lia.
Qed.

Lemma reachable_five_done : reachable five_done.
Proof.
  apply reachable_by_run; [|apply reachable_by_fresh]. by apply Forall_forall.
Qed.

Lemma counters_invariant_witness :
  xp (self five_done) = 100 ∧ level (self five_done) = 100 / 100 + 1.
Proof.
  destruct (counters_invariant five_done reachable_five_done) as (_ & _ & Hl & _).
  split; [reflexivity | exact Hl].
Defined.

Lemma level_awards_exec o w :
  (("Level 2 Achieved" ∈ achievements (self w) ↔ 2 ≤ level (self w)) ∧
   ("Level 5 Achieved" ∈ achievements (self w) ↔ 5 ≤ level (self w))) →
  ("Level 2 Achieved" ∈ achievements (self (exec o w).1)
     ↔ 2 ≤ level (self (exec o w).1)) ∧
  ("Level 5 Achieved" ∈ achievements (self (exec o w).1)
     ↔ 5 ≤ level (self (exec o w).1)).
Proof.
  intros IH. destruct o; csimpl; try done.
  - by op_cases.
  - by op_cases.
  - pose proof (level_le_complete now task_id w) as Hle.
    destruct (Dict.get task_id (tasks (self w))) as [t|] eqn:E.
    + pose proof (λ x, achievements_complete x now task_id t w E) as Ha.
      destruct (complete_task now task_id w) as [w' r]. cbn [fst] in *.
      rewrite !Ha. destruct IH as [IH2 IH5]. split; split.
      * intros [H|[(m & Hm & _ & Hx)|[[? _]|[_ ?]]]];
          [apply IH2 in H; lia | | done | done].
        by apply milestone_not_level in Hm as [? ?].
      * intros H. right; right; left. done.
      * intros [H|[(m & Hm & _ & Hx)|[[_ ?]|[? _]]]];
          [apply IH5 in H; lia | | done | done].
        by apply milestone_not_level in Hm as [? ?].
      * intros H. right; right; right. done.
    + unfold complete_task. by rewrite E.
Qed.

(** X3: in every reachable state "Level 2 Achieved" is held exactly when
    the level is at least 2, and "Level 5 Achieved" exactly when it is at
    least 5 (deletions do not disturb this, as the level never falls). *)
Theorem level_awards_held w :
  reachable w →
  ("Level 2 Achieved" ∈ achievements (self w) ↔ 2 ≤ level (self w)) ∧
  ("Level 5 Achieved" ∈ achievements (self w) ↔ 5 ≤ level (self w)).
Proof.
  revert w. apply (reachable_planner_ind (λ p,
    ("Level 2 Achieved" ∈ achievements p ↔ 2 ≤ level p) ∧
    ("Level 5 Achieved" ∈ achievements p ↔ 5 ≤ level p))).
  - cbn. split; (split; [intros H; by apply elem_of_empty in H | lia]).
  - done.
  - intros o w _. apply level_awards_exec.
Qed.

Lemma level_awards_held_witness :
  "Level 2 Achieved" ∈ achievements (self five_done) ∧
  ¬ "Level 5 Achieved" ∈ achievements (self five_done).
Proof.
  destruct (level_awards_held five_done reachable_five_done) as [[_ H2] [H5 _]].
  split; [apply H2; vm_compute; discriminate|].
  intros H. apply H5 in H. vm_compute in H. by apply H.
Defined.

(** X4: in every reachable state the achievements are among the six names
    the completion check can award. *)
Theorem achievements_known w x :
  reachable w → x ∈ achievements (self w) → x ∈ award_names.
Proof.
  intros Hr. revert x. revert w Hr.
  apply (reachable_planner_ind (λ p, ∀ x, x ∈ achievements p → x ∈ award_names)).
  - intros x H. by apply elem_of_empty in H.
  - done.
  - intros o w _ IH x. destruct o; csimpl; try apply IH.
    + op_cases; apply IH.
    + op_cases; apply IH.
    + destruct (Dict.get task_id (tasks (self w))) as [t|] eqn:E.
      * pose proof (achievements_complete x now task_id t w E) as Ha.
        destruct (complete_task now task_id w) as [w' r]. cbn [fst] in *.
        rewrite Ha. unfold award_names.
        intros [H|[(m & Hm & _ & ->)|[[_ ->]|[_ ->]]]]; [by apply IH| | |].
        -- unfold milestones in Hm.
           elem_cases Hm; apply list_elem_of_In; cbn; tauto.
        -- apply list_elem_of_In; cbn; tauto.
        -- apply list_elem_of_In; cbn; tauto.
      * unfold complete_task. rewrite E. apply IH.
Qed.

Lemma achievements_known_witness :
  "Getting Serious" ∈ achievements (self five_done) ∧
  "Getting Serious" ∈ award_names.
Proof.
  assert ("Getting Serious" ∈ achievements (self five_done)) as H.
  { apply (bool_decide_unpack _). vm_compute. exact I. }
  split; [exact H|].
  exact (achievements_known five_done "Getting Serious" reachable_five_done H).
Defined.

(** ** The two collections *)

Lemma completed_at_apply_kwargs kwargs t :
  is_Some (completed_at t) → is_Some (completed_at (apply_kwargs kwargs t)).
Proof.
  revert t. induction kwargs as [|kw r IH]; intros t H; [done|].
  rewrite apply_kwargs_cons. apply IH.
  destruct kw as [v|v|v|v|v|v|v|v|]; try done; destruct v; done.
Qed.

(** X5: in every reachable state each task of the completed dictionary has
    its [completed_at] stamp set; neither an edit nor a restart clears it. *)
Theorem completed_tasks_stamped w k t :
  reachable w →
  Dict.get k (completed (self w)) = Some t →
  is_Some (completed_at t).
Proof.
  intros Hr Hg.
  assert (Forall (λ kt, is_Some (completed_at kt.2)) (completed (self w))) as Hall.
  { clear k t Hg. revert w Hr.
    apply (reachable_planner_ind
             (λ p, Forall (λ kt, is_Some (completed_at kt.2)) (completed p))).
    - constructor.
    - intros p _ IH. cbn. unfold restore_ids. apply Forall_map.
      eapply Forall_impl; [exact IH|]. by intros [? ?].
    - intros o w _ IH. destruct o; csimpl; try done.
      + op_cases; cbn [completed]; try done. by apply Forall_pop.
      + op_cases; cbn [completed]; try done.
        apply Forall_alter; [|done]. intros ? ?. apply completed_at_apply_kwargs.
      + op_cases; [|done]. rewrite completed_check_achievements. cbn [completed].
        apply Forall_set; [|done]. by eexists. }
  rewrite Forall_forall in Hall. apply (Hall (k, t)). by apply get_Some_elem.
Qed.

Lemma reachable_one_pending : reachable one_pending.
Proof.
  change one_pending with
    (exec (Add "2024-05-01T09:00:00" "Read Ch.1" "General" None 3 "") fresh_world).1.
  apply reach_exec; [done|]. apply reachable_by_fresh.
Qed.

Lemma reachable_already_done : reachable already_done.
Proof.
  change already_done with
    (exec (Complete "2024-05-01T09:30:00" 1) one_pending).1.
  apply reach_exec; [done|]. apply reachable_one_pending.
Qed.

Lemma completed_tasks_stamped_witness :
  is_Some (completed_at
    (mkTask (Some 1) "Read Ch.1" "General" None 3 "" "2024-05-01T09:00:00"
            (Some "2024-05-01T09:30:00"))).
Proof.
  apply (completed_tasks_stamped already_done 1).
  - apply reachable_already_done.
  - reflexivity.
Defined.

Lemma keys_positive w :
  reachable w →
  1 ≤ next_id (self w) ∧
  ∀ k, k ∈ Dict.keys (tasks (self w)) ++ Dict.keys (completed (self w)) → 1 ≤ k.
Proof.
  revert w. apply (reachable_planner_ind (λ p,
    1 ≤ next_id p ∧ ∀ k, k ∈ Dict.keys (tasks p) ++ Dict.keys (completed p) → 1 ≤ k)).
  - split; [done|]. intros k H. by apply elem_of_nil in H.
  - intros p _ [H1 H2]. split; [done|]. intros k.
    unfold normalize. cbn [tasks completed].
    rewrite keys_restore_ids_pending, keys_restore_ids. apply H2.
  - intros o w Hok [H1 H2]. destruct o; csimpl; try done.
    + split; [lia|]. intros k. rewrite elem_of_app, elem_of_keys_set.
      intros [[->|H]|H]; [done| |]; apply H2, elem_of_app; auto.
    + op_cases; (split; [done|]); try done; intros k; cbn [tasks completed];
        rewrite elem_of_app; intros [H|H]; apply H2, elem_of_app; auto.
      * left. by apply (keys_pop_subseteq task_id).
      * right. by apply (keys_pop_subseteq task_id).
    + op_cases; (split; [done|]); try done; intros k; cbn [tasks completed];
        rewrite ?keys_alter; apply H2.
    + op_cases; [|done]. split; [done|]. intros k.
      rewrite completed_check_achievements. cbn [tasks completed].
      rewrite elem_of_app, elem_of_keys_set.
      assert (task_id ∈ Dict.keys (tasks (self w))) as Hin.
      { apply get_is_Some_keys. by eexists. }
      intros [H|[->|H]]; apply H2, elem_of_app; auto.
      left. by apply (keys_pop_subseteq task_id).
Qed.

(** X6: in every reachable state no id is a key of both dictionaries, the
    keys of each dictionary are distinct, and every key lies between 1 and
    [next_id - 1]. *)
Theorem collections_disjoint w :
  reachable w →
  NoDup (Dict.keys (tasks (self w)) ++ Dict.keys (completed (self w))) ∧
  ∀ k, k ∈ Dict.keys (tasks (self w)) ++ Dict.keys (completed (self w)) →
       1 ≤ k < next_id (self w).
Proof.
  intros Hr. destruct (reachable_by_ok _ _ Hr) as [[Ht Hc _ _ Hb Hd _] _].
  destruct (keys_positive w Hr) as [_ Hp]. split.
  - apply NoDup_app. done.
  - intros k Hk. split; [by apply Hp | by apply Hb].
Qed.

Lemma collections_disjoint_witness :
  NoDup (Dict.keys (tasks (self after_deletions))
         ++ Dict.keys (completed (self after_deletions))).
Proof.
  apply collections_disjoint.
  apply reachable_by_run; [|apply reachable_by_fresh]. by apply Forall_forall.
Defined.

Lemma keys_tasks_exec o w k :
  k ∈ Dict.keys (tasks (self (exec o w).1)) →
  k ∈ Dict.keys (tasks (self w)) ∨ k = next_id (self w).
Proof.
  destruct o; csimpl; try (by left).
  - rewrite elem_of_keys_set. tauto.
  - op_cases; cbn [tasks]; try (by left).
    intros H. left. by apply (keys_pop_subseteq task_id).
  - op_cases; cbn [tasks]; rewrite ?keys_alter; by left.
  - op_cases; [|by left]. cbn [tasks].
    intros H. left. by apply (keys_pop_subseteq task_id).
Qed.

(** X7: an id below [next_id] that is not pending (its task was completed
    or deleted) is never pending again, whatever calls follow: a completed
    task is not reopened and a deleted id is not given out again. *)
Theorem never_pending_again ops w k :
  k < next_id (self w) →
  k ∉ Dict.keys (tasks (self w)) →
  k ∉ Dict.keys (tasks (self (run ops w).1)).
Proof.
  revert w. induction ops as [|o r IH]; intros w Hlt Hk; [done|].
  cbn [run]. pose proof (keys_tasks_exec o w k) as Hs.
  pose proof (proj1 (next_id_exec o w)) as Hn.
  destruct (exec o w) as [w1 v]. cbn [fst] in *.
  specialize (IH w1). destruct (run r w1) as [w2 vs]. cbn [fst] in *.
  apply IH; [lia|]. intros H. destruct (Hs H) as [?| ->]; [done | lia].
Qed.

Lemma never_pending_again_witness :
  1 ∉ Dict.keys (tasks (self (run
        [Delete 1; Add "2024-05-04T09:00:00" "again" "General" None 3 "";
         Edit 1 [kw_title (Some "x")]; Complete "2024-05-04T10:00:00" 1]
        already_done).1)).
Proof.
  apply never_pending_again.
  - vm_compute. reflexivity.
  - vm_compute. intros H. apply elem_of_nil in H. exact H.
Defined.

(** X8: in a reachable state, once [complete_task] has succeeded for an id,
    a second [complete_task] for the same id fails and changes nothing. *)
Theorem complete_task_twice now now' task_id w :
  reachable w →
  task_id ∈ Dict.keys (tasks (self w)) →
  let w1 := (complete_task now task_id w).1 in
  (complete_task now task_id w).2.1 = true ∧
  complete_task now' task_id w1 =
    (w1, (false, Message "Task not found or already completed.")).
Proof.
  intros Hr Hin. destruct (reachable_by_ok _ _ Hr) as [[Ht _ _ _ _ _ _] _].
  apply get_is_Some_keys in Hin as [t E]. cbv zeta.
  unfold complete_task. rewrite E.
  cbn [fst snd self save tasks _check_achievements_on_completion].
  by rewrite get_pop_eq.
Qed.

Lemma complete_task_twice_witness :
  complete_task "2024-05-01T11:00:00" 1
    (complete_task "2024-05-01T09:30:00" 1 one_pending).1 =
  ((complete_task "2024-05-01T09:30:00" 1 one_pending).1,
   (false, Message "Task not found or already completed.")).
Proof.
  apply (complete_task_twice "2024-05-01T09:30:00" "2024-05-01T11:00:00" 1 one_pending).
  - apply reachable_one_pending.
  - vm_compute. left.
Defined.

(** ** Adding and deleting *)



(** X10: in a reachable state [delete_task] returns the task that
    [get_task] finds (or [None]), after which the id resolves to nothing;
    every other id resolves as before, and next_id, xp, level and the
    achievements are untouched. *)
Theorem delete_task_removes task_id w :
  reachable w →
  let w' := (delete_task task_id w).1 in
  (delete_task task_id w).2 = get_task task_id (self w) ∧
  get_task task_id (self w') = None ∧
  (∀ k, k ≠ task_id → get_task k (self w') = get_task k (self w)) ∧
  next_id (self w') = next_id (self w) ∧ xp (self w') = xp (self w) ∧
  level (self w') = level (self w) ∧
  achievements (self w') = achievements (self w).
Proof.
  intros Hr. destruct (reachable_by_ok _ _ Hr) as [[Ht Hc _ _ _ Hd _] _].
  cbv zeta. unfold delete_task, get_task.
  destruct (Dict.get task_id (tasks (self w))) as [t|] eqn:E1;
    [|destruct (Dict.get task_id (completed (self w))) as [t|] eqn:E2];
    cbn [fst snd self save tasks completed next_id xp level achievements];
    split_and!; try done.
  - rewrite get_pop_eq by done. apply get_None_keys, Hd.
    apply get_is_Some_keys. by eexists.
  - intros k N. by rewrite get_pop_ne.
  - by rewrite E1, get_pop_eq.
  - intros k N. by rewrite get_pop_ne.
  - by rewrite E1, E2.
Qed.

Lemma delete_task_removes_witness :
  get_task 1 (self (delete_task 1 already_done).1) = None.
Proof.
  apply (delete_task_removes 1 already_done reachable_already_done).
Defined.

(** X11: in a reachable state, adding a task and deleting the returned id
    restores both dictionaries, xp, level and achievements; only [next_id]
    has moved on, so the id is spent. *)
Theorem add_then_delete now title category due_date priority notes w :
  reachable w →
  let w1 := (add_task now title category due_date priority notes w).1 in
  let i := (add_task now title category due_date priority notes w).2 in
  let w2 := (delete_task i w1).1 in
  tasks (self w2) = tasks (self w) ∧
  completed (self w2) = completed (self w) ∧
  next_id (self w2) = next_id (self w) + 1 ∧
  xp (self w2) = xp (self w) ∧ level (self w2) = level (self w) ∧
  achievements (self w2) = achievements (self w).
Proof.
  intros Hr. destruct (reachable_by_ok _ _ Hr) as [[_ _ _ _ Hb _ _] _].
  assert (next_id (self w) ∉ Dict.keys (tasks (self w))) as Ht.
  { intros H. assert (next_id (self w) < next_id (self w)); [|lia].
    apply Hb, elem_of_app. auto. }
  cbv zeta. unfold add_task, delete_task.
  cbn [fst snd self save tasks completed].
  rewrite get_set_eq.
  cbn [fst snd self save tasks completed next_id xp level achievements].
  rewrite set_fresh, pop_app_last by done. done.
Qed.

Lemma add_then_delete_witness :
  tasks (self (delete_task 2
    (add_task "2024-05-02T09:00:00" "Essay" "Study" None 2 "" one_pending).1).1)
  = tasks (self one_pending).
Proof.
  apply (add_then_delete "2024-05-02T09:00:00" "Essay" "Study" None 2 ""
           one_pending reachable_one_pending).
Defined.

(** ** Counting *)

(** X12: [stats_summary] reports total = pending + completed, and in a
    reachable state a successful [complete_task] moves exactly one task
    from the pending count to the completed count, [add_task] raises the
    pending count by one, and a [delete_task] that finds its task lowers
    the total by one. *)
Theorem stats_counts now task_id title category due_date priority notes w :
  reachable w →
  let s := stats_summary (self w) in
  st_total s = st_pending s + st_completed s ∧
  (task_id ∈ Dict.keys (tasks (self w)) →
   let s' := stats_summary (self (complete_task now task_id w).1) in
   st_pending s' = st_pending s - 1 ∧ st_completed s' = st_completed s + 1 ∧
   st_total s' = st_total s) ∧
  (let s' := stats_summary
               (self (add_task now title category due_date priority notes w).1) in
   st_pending s' = st_pending s + 1 ∧ st_completed s' = st_completed s) ∧
  (is_Some (get_task task_id (self w)) →
   st_total (stats_summary (self (delete_task task_id w).1)) = st_total s - 1).
Proof.
  intros Hr.
  destruct (reachable_by_ok _ _ Hr) as [[Ht Hc _ _ Hb Hd _] _].
  cbv zeta. split; [|split; [|split]].
  - done.
  - intros Hin. pose proof (length_pop_mem _ _ Hin) as Hl.
    pose proof (Hd _ Hin) as Hn.
    apply get_is_Some_keys in Hin as [t E].
    unfold complete_task. rewrite E.
    cbn [fst self save stats_summary st_pending st_completed st_total
         _check_achievements_on_completion tasks completed].
    rewrite set_fresh, length_app by done. cbn [length]. lia.
  - unfold add_task.
    cbn [fst self save stats_summary st_pending st_completed tasks completed].
    rewrite set_fresh, length_app; [cbn [length]; lia|].
    intros H. assert (next_id (self w) < next_id (self w)); [|lia].
    apply Hb, elem_of_app. auto.
  - unfold get_task, delete_task.
    destruct (Dict.get task_id (tasks (self w))) as [t|] eqn:E1;
      [|destruct (Dict.get task_id (completed (self w))) as [t|] eqn:E2].
    + intros _. cbn [fst self save stats_summary st_total tasks completed].
      assert (task_id ∈ Dict.keys (tasks (self w))) as Hin
        by (apply get_is_Some_keys; by eexists).
      pose proof (length_pop_mem _ _ Hin). lia.
    + intros _. cbn [fst self save stats_summary st_total tasks completed].
      assert (task_id ∈ Dict.keys (completed (self w))) as Hin
        by (apply get_is_Some_keys; by eexists).
      pose proof (length_pop_mem _ _ Hin). lia.
    + intros [? ?]. done.
Qed.

Lemma stats_counts_witness :
  st_total (stats_summary (self after_deletions)) =
  st_pending (stats_summary (self after_deletions))
  + st_completed (stats_summary (self after_deletions)).
Proof.
  apply (stats_counts "" 1 "" "" None 3 "" after_deletions).
  apply reachable_by_run; [|apply reachable_by_fresh]. by apply Forall_forall.
Defined.

(** ** The sorted list of achievements *)

Section sort_generic.
Context {A K : Type} (leb : K → K → bool).
Hypothesis leb_total : ∀ a b, leb a b = true ∨ leb b a = true.
Hypothesis leb_trans : ∀ a b c, leb a b = true → leb b c = true → leb a c = true.

Lemma insert_sorted_permutation (x : K * A) l :
  Permutation (insert_sorted leb x l) (x :: l).
Proof.
  induction l as [|y r IH]; csimpl; [done|].
  destruct (leb x.1 y.1); [done|]. rewrite IH. apply perm_swap.
Qed.

Lemma stable_sort_permutation (l : list (K * A)) :
  Permutation (stable_sort leb l) l.
Proof.
  induction l as [|x r IH]; csimpl; [done|].
  rewrite insert_sorted_permutation. by constructor.
Qed.

Lemma insert_sorted_ordered (x : K * A) l :
  StronglySorted (λ a b, leb a.1 b.1 = true) l →
  StronglySorted (λ a b, leb a.1 b.1 = true) (insert_sorted leb x l).
Proof.
  induction 1 as [|y r Hs IH Hall]; csimpl.
  - repeat constructor.
  - destruct (leb x.1 y.1) eqn:E.
    + constructor; [by constructor|].
      constructor; [done|]. eapply Forall_impl; [exact Hall|].
      csimpl. intros z Hz. by apply (leb_trans _ y.1).
    + constructor; [done|].
      rewrite insert_sorted_permutation. constructor; [|done].
      destruct (leb_total x.1 y.1); [congruence | done].
Qed.

Lemma stable_sort_ordered (l : list (K * A)) :
  StronglySorted (λ a b, leb a.1 b.1 = true) (stable_sort leb l).
Proof.
  induction l as [|x r IH]; csimpl; [constructor|].
  by apply insert_sorted_ordered.
Qed.
End sort_generic.

Lemma string_leb_trans (a b c : string) :
  String.leb a b = true → String.leb b c = true → String.leb a c = true.
Proof.
  intros H1 H2. apply Is_true_true.
  apply (transitivity (R := String.le) (y := b)); by apply Is_true_true.
Qed.

(** X13: the achievements list of [stats_summary] holds exactly the names
    of the achievements set, each once, in ascending string order; the xp
    and level it reports are the stored ones. *)
Theorem stats_achievements_sorted p :
  let s := stats_summary p in
  (∀ x, x ∈ st_achievements s ↔ x ∈ achievements p) ∧
  NoDup (st_achievements s) ∧
  StronglySorted (λ a b, String.leb a b = true) (st_achievements s) ∧
  st_xp s = xp p ∧ st_level s = level p.
Proof.
  cbv zeta. unfold stats_summary. cbn [st_achievements st_xp st_level].
  set (kl := map (λ s : string, (s, s)) (elements (achievements p))).
  assert (Permutation (stable_sort String.leb kl).*2 (elements (achievements p)))
    as Hp.
  { rewrite stable_sort_permutation. unfold kl.
    clear. induction (elements (achievements p)); csimpl; by constructor. }
  split_and!; try done.
  - intros x. rewrite Hp. apply elem_of_elements.
  - rewrite Hp. apply NoDup_elements.
  - assert (Forall (λ q : string * string, q.1 = q.2) (stable_sort String.leb kl))
      as Hk.
    { rewrite stable_sort_permutation. unfold kl.
      apply Forall_map, Forall_forall. done. }
    pose proof (stable_sort_ordered String.leb String.leb_total string_leb_trans kl)
      as Hs.
    clear Hp. induction Hs as [|q r Hs IH Hall]; csimpl; [constructor|].
    apply Forall_cons in Hk as [Hq Hk]. constructor; [by apply IH|].
    apply Forall_fmap. rewrite Forall_forall in Hall, Hk |- *.
    intros z Hz. csimpl. rewrite <- Hq, <- (Hk z Hz). by apply Hall.
Qed.

Example stats_five_done :
  st_achievements (stats_summary (self after_deletions)) =
    ["First Task Done"; "Getting Serious"; "Level 2 Achieved"].
Proof. vm_compute. reflexivity. Qed.

(** ** Ties in a listing *)

Lemma filter_insert_sorted {A} (k : Z) (x : Z * A) l :
  filter (λ q, q.1 = k) (insert_sorted Z.leb x l) =
  filter (λ q, q.1 = k) (x :: l).
Proof.
  induction l as [|y r IH]; csimpl; [done|].
  destruct (Z.leb_spec x.1 y.1) as [Hle|Hlt]; [done|].
  rewrite (filter_cons _ y), IH.
  rewrite (filter_cons _ x (y :: r)), (filter_cons _ y r), (filter_cons _ x r).
  destruct (decide (x.1 = k)), (decide (y.1 = k)); try done; lia.
Qed.

Lemma filter_stable_sort {A} (k : Z) (l : list (Z * A)) :
  filter (λ q, q.1 = k) (stable_sort Z.leb l) = filter (λ q, q.1 = k) l.
Proof.
  induction l as [|x r IH]; csimpl; [done|].
  rewrite filter_insert_sorted, !filter_cons, IH. done.
Qed.

Lemma filter_decorated {A} (f : A → Z) (k : Z) (kl : list (Z * A)) :
  Forall (λ q, q.1 = f q.2) kl →
  filter (λ x, f x = k) kl.*2 = (filter (λ q, q.1 = k) kl).*2.
Proof.
  induction 1 as [|q r Hq _ IH]; csimpl; [done|].
  rewrite !filter_cons, IH, <- Hq. by destruct (decide (q.1 = k)).
Qed.

Lemma list_sort_stable {A} (f : A → Z) (k : Z) (l : list A) :
  ∃ l', list_sort Z.leb (λ x, Ok (f x)) l = Ok l' ∧
        filter (λ x, f x = k) l' = filter (λ x, f x = k) l.
Proof.
  unfold list_sort. rewrite (decorate_total _ f l) by done. csimpl.
  eexists. split; [done|].
  rewrite (filter_decorated f).
  - rewrite filter_stable_sort, <- (filter_decorated f).
    + f_equal. clear. induction l; csimpl; by f_equal.
    + apply Forall_map, Forall_forall. done.
  - rewrite stable_sort_perm. apply Forall_map, Forall_forall. done.
Qed.

(** X14: the priority listing of [view_tasks] (also the default listing) is
    stable: the tasks of one priority appear in the order in which the
    dictionary holds them, that is, in the order they were added or
    completed. *)
Theorem view_tasks_stable sc p k :
  ∃ l, view_tasks sc None p = Ok l ∧
       view_tasks sc (Some "priority") p = Ok l ∧
       filter (λ x, priority x.2 = k) l =
       filter (λ x, priority x.2 = k) (shown sc p).
Proof.
  rewrite !view_tasks_unfold. csimpl.
  destruct (list_sort_stable (λ x : Z * Task, priority x.2) k (shown sc p))
    as (l & -> & Hl).
  by exists l.
Qed.

Example view_ties_in_insertion_order :
  listed_ids (view_tasks None None (self (run
    [Add "t1" "a" "General" None 3 ""; Add "t2" "b" "General" None 1 "";
     Add "t3" "c" "General" None 3 ""; Add "t4" "d" "General" None 1 ""]
    fresh_world).1)) = Ok [2; 4; 1; 3].
Proof. vm_compute. reflexivity. Qed.

(** ** Narrowing a search *)

Lemma string_append_assoc (a b c : string) :
  ((a ++ b) ++ c)%string = (a ++ (b ++ c))%string.
Proof.
  induction a as [|x a IH]; [done|].
  rewrite !append_cons. by rewrite IH.
Qed.

Lemma contains_trans a b s :
  contains a b = true → contains b s = true → contains a s = true.
Proof.
  rewrite !contains_spec. intros (p1 & q1 & ->) (p2 & q2 & ->).
  exists (p2 ++ p1)%string, (q1 ++ q2)%string.
  by rewrite !string_append_assoc.
Qed.

Lemma contains_empty s : contains "" s = true.
Proof. by destruct s. Qed.

Lemma sublist_filter_impl {A} (P Q : A → Prop)
    `{∀ x, Decision (P x)} `{∀ x, Decision (Q x)} (l : list A) :
  (∀ x, P x → Q x) → sublist (filter P l) (filter Q l).
Proof.
  intros HPQ. induction l as [|x r IH]; [done|].
  rewrite !filter_cons.
  destruct (decide (P x)) as [HP|HP].
  - rewrite decide_True by auto. by constructor.
  - destruct (decide (Q x)); [by constructor | done].
Qed.

Lemma filter_all {A} (P : A → Prop) `{∀ x, Decision (P x)} (l : list A) :
  (∀ x, P x) → filter P l = l.
Proof.
  intros HP. induction l as [|x r IH]; [done|].
  rewrite filter_cons, decide_True by done. by rewrite IH.
Qed.

(** X15: on ASCII text, [search_tasks] with the empty keyword returns every
    task, the pending ones followed by the completed ones; and an ASCII
    keyword that contains another one (letter case ignored) finds a sublist
    of what the shorter keyword finds. *)
Theorem search_tasks_narrowing p :
  ascii_planner p →
  search_tasks "" p = Ok (tasks p ++ completed p) ∧
  ∀ kw1 kw2, is_ascii kw1 = true → is_ascii kw2 = true →
             ci_substring kw1 kw2 →
             ∃ found1 found2,
               search_tasks kw1 p = Ok found1 ∧
               search_tasks kw2 p = Ok found2 ∧
               sublist found2 found1.
Proof.
  intros Hp. split.
  - rewrite search_tasks_ascii by done. cbn [lower]. f_equal.
    apply filter_all. intros [k t]. by rewrite contains_empty.
  - intros kw1 kw2 H1 H2 Hc. apply contains_lower in Hc.
    eexists _, _. split; [by apply search_tasks_ascii|].
    split; [by apply search_tasks_ascii|].
    apply sublist_filter_impl. intros [k t]. rewrite !orb_true_iff.
    intros [[H|H]|H]; eauto using contains_trans.
Qed.

Lemma search_tasks_narrowing_witness :
  search_tasks "" (self algebra_world) =
    Ok (tasks (self algebra_world) ++ completed (self algebra_world)).
Proof.
  apply search_tasks_narrowing. split; vm_compute; repeat constructor.
Defined.

Example search_narrowing_sample :
  listed_ids (search_tasks "a" (self algebra_world)) = Ok [1; 2; 3] ∧
  listed_ids (search_tasks "Al" (self algebra_world)) = Ok [1; 3] ∧
  listed_ids (search_tasks "" (self algebra_world)) = Ok [1; 2; 3].
Proof. vm_compute. done. Qed.

(** ** Task records *)

(** X16: [Task.from_dict] undoes [Task.to_dict] on every task; a record
    with only a title gets the defaults of the constructor (category
    "General", no due date, priority 3, empty notes, [created_at] the clock
    reading, no id); a record without "title" raises [KeyError]; and a
    value that is not an object raises [TypeError]. *)
Theorem from_dict_cases now :
  (∀ t, from_dict now (to_dict t) = Ok t) ∧
  (∀ s, from_dict now (JObj [("title", JStr s)]) =
        Ok (new_Task now s "General" None 3 "")) ∧
  (∀ m, Dict.get "title" m = None → from_dict now (JObj m) = Raises KeyError) ∧
  from_dict now JNull = Raises TypeError ∧
  (∀ b, from_dict now (JBool b) = Raises TypeError) ∧
  (∀ z, from_dict now (JNum z) = Raises TypeError) ∧
  (∀ s, from_dict now (JStr s) = Raises TypeError) ∧
  (∀ l, from_dict now (JArr l) = Raises TypeError).
Proof.
  split_and!; try done.
  - apply from_dict_to_dict.
  - intros m E. unfold from_dict. by rewrite E.
Qed.

(** ** Loading again, and restarting *)

(** X17: [load] never reads the planner object: whatever is in memory, the
    result is decided by the file; after [load] the data file exists and
    holds a JSON document; and loading again (at the same clock reading)
    changes neither the planner nor the file. *)
Theorem load_idempotent now w w' :
  load now w = Some w' →
  (∀ p, load now (mkWorld p (data_file w)) = Some w') ∧
  (∃ doc, data_file w' = Stored doc) ∧
  load now w' = Some w'.
Proof.
  destruct w as [p0 f]. unfold load. cbn [data_file].
  destruct f as [| |doc]; cbn [data_file].
  - vm_compute. intros Hw; injection Hw as Hw; subst w'.
    split_and!; [done | eexists; reflexivity | done].
  - intros Hw; injection Hw as Hw; subst w'.
    split_and!; [done | eexists; reflexivity |].
    vm_compute. reflexivity.
  - destruct (load_try now doc) as [p|e|] eqn:E; [| |intros [=]].
    + intros Hw; injection Hw as Hw; subst w'.
      split_and!; [done | eexists; reflexivity |].
      cbn [data_file]. by rewrite E.
    + intros Hw; injection Hw as Hw; subst w'.
      split_and!; [done | eexists; reflexivity |].
      vm_compute. reflexivity.
Qed.

Lemma load_idempotent_witness :
  ∃ w', load "2024-05-03T07:00:00" (mkWorld default_Planner untitled_file) = Some w' ∧
        load "2024-05-03T07:00:00" w' = Some w'.
Proof.
  eexists. split; [reflexivity|].
  apply (load_idempotent "2024-05-03T07:00:00"
           (mkWorld default_Planner untitled_file)).
  reflexivity.
Defined.

(** X18: the engine writes through: in every reachable state a restart on
    the data file succeeds without touching the file and brings back the
    same next_id, xp, level and achievements and the same tasks under the
    same keys in the same order (every attribute other than id, which is
    reset to the key). *)
Theorem restart_loses_nothing now w :
  reachable w →
  ∃ w', new_Planner now (data_file w) = Some w' ∧
    data_file w' = data_file w ∧
    next_id (self w') = next_id (self w) ∧
    xp (self w') = xp (self w) ∧
    level (self w') = level (self w) ∧
    achievements (self w') = achievements (self w) ∧
    forget_ids (tasks (self w')) = forget_ids (tasks (self w)) ∧
    forget_ids (completed (self w')) = forget_ids (completed (self w)).
Proof.
  intros Hr. destruct (reachable_by_ok _ _ Hr) as [_ (doc & Hdoc & Hload)].
  exists (mkWorld (normalize (self w)) (data_file w)).
  split.
  - unfold new_Planner, load. cbn [data_file]. rewrite Hdoc.
    cbn [data_file]. by rewrite Hload.
  - cbn [self data_file normalize tasks completed next_id xp level achievements].
    split_and!; try done.
    + apply forget_ids_restore_ids_pending.
    + apply forget_ids_restore_ids.
Qed.

Lemma restart_loses_nothing_witness :
  ∃ w', new_Planner "2024-05-09T08:00:00" (data_file after_deletions) = Some w' ∧
        xp (self w') = 120.
Proof.
  destruct (restart_loses_nothing "2024-05-09T08:00:00" after_deletions)
    as (w' & Hn & _ & _ & Hx & _).
  - apply reachable_by_run; [|apply reachable_by_fresh]. by apply Forall_forall.
  - exists w'. split; [exact Hn|]. rewrite Hx. reflexivity.
Defined.

(** * The command-line layer *)

(** ** Prompts *)


Lemma py_int_raises_nonempty line e : py_int line = Raises e → line ≠ "".
Proof. intros H ->. discriminate H. Qed.



Example prompt_priority_sample :
  prompt_priority ["high"; "9"; "0"; "4"; "next"] = Returned 4 ["next"].
Proof. vm_compute. reflexivity. Qed.



Lemma date_fromisoformat_answer line :
  date_answer line →
  (∃ v, date_fromisoformat (strip line) = Ok v ∧ calendar_date (strip line)) ∨
  (∃ e, date_fromisoformat (strip line) = Raises e ∧
        ¬ calendar_date (strip line)).
Proof.
  intros [_ H]. unfold date_fromisoformat, calendar_date.
  destruct (parse_date (strip line)) as [[[y m] d]|] eqn:P.
  - destruct (valid_date y m d) eqn:V.
    + left. eexists. split; [done|]. by exists y, m, d.
    + right. eexists. split; [done|]. intros (? & ? & ? & [= <- <- <-] & V').
      congruence.
  - destruct H as [->|[? [=]]]. right. eexists. split; [done|].
    by intros (? & ? & ? & ? & ?).
Qed.

(** X20: on answers that are ASCII text and, stripped, have no digit or the
    form 'YYYY-MM-DD' (and fewer of them than the recursion limit allows),
    [prompt_date] skips the rejected lines and returns at the first line
    that is blank, with [None], or names a calendar date, with the stripped
    line, which the due-date sort of [view_tasks] can parse; it ends with
    [EOFError] exactly when every line is rejected. *)
Theorem prompt_date_spec stdin :
  Forall date_answer stdin → (length stdin ≤ recursion_room)%nat →
  (∀ d rest, prompt_date stdin = Returned d rest ↔
     ∃ pre line, stdin = pre ++ line :: rest ∧ Forall rejected_date pre ∧
       match d with
       | None => strip line = ""
       | Some s =>
           s = strip line ∧ s ≠ "" ∧ calendar_date s ∧
           ∃ y m dd, fromisoformat s = Ok (datetime_of y m dd 0)
       end) ∧
  (prompt_date stdin = EndOfInput ↔ Forall rejected_date stdin) ∧
  prompt_date stdin ≠ OutOfModel ∧
  (∀ e, prompt_date stdin ≠ Uncaught e).
Proof.
  intros Ha _. induction Ha as [|line r Hl _ IH].
  { split_and!; try done.
    intros d rest. split; [done|]. by intros ([|? ?] & ? & ? & _). }
  destruct IH as (IH1 & IH2 & IH3 & IH4). cbn [prompt_date].
  destruct (String.eqb_spec (strip line) "") as [E|N].
  { split_and!; try done.
    - intros d rest. split.
      + intros [= <- <-]. by exists [], line.
      + intros ([|l pre] & l' & Hs & Hp & Hd).
        * injection Hs as <- <-. destruct d as [s|]; [|done].
          by destruct Hd as (-> & ? & _).
        * injection Hs as <- _. apply Forall_cons in Hp as [[? _] _]. done.
    - split; [done|]. intros [[? _] _]%Forall_cons. done. }
  destruct (date_fromisoformat_answer line Hl) as [(v & -> & Hc)|(e & -> & Hc)].
  - split_and!; try done.
    + intros d rest. split.
      * intros [= <- <-]. exists [], line. split; [done|]. split; [done|].
        split; [done|]. split; [done|]. split; [done|].
        destruct Hc as (y & m & dd & P & V). exists y, m, dd.
        unfold fromisoformat. by rewrite P, V.
      * intros ([|l pre] & l' & Hs & Hp & Hd).
        -- injection Hs as <- <-. destruct d as [s|]; [|done].
           by destruct Hd as (-> & _).
        -- injection Hs as <- _. apply Forall_cons in Hp as [[_ ?] _]. done.
    + split; [done|]. intros [[_ ?] _]%Forall_cons. done.
  - split_and!; try done.
    + intros d rest. rewrite IH1. split.
      * intros (pre & l & -> & Hp & Hd). exists (line :: pre), l.
        split; [done|]. split; [|done]. by constructor.
      * intros ([|l pre] & l' & Hs & Hp & Hd).
        -- injection Hs as <- <-. destruct d as [s|]; [|done].
           destruct Hd as (-> & _ & ? & _). done.
        -- injection Hs as <- ->. apply Forall_cons in Hp as [_ Hp].
           by exists pre, l'.
    + rewrite IH2. split.
      * intros H. by constructor.
      * by intros [_ ?]%Forall_cons.
Qed.

Lemma prompt_date_spec_witness :
  prompt_date ["soon"; "2023-02-29"; "  2024-02-29 "; "x"] ≠ OutOfModel.
Proof.
  apply prompt_date_spec.
  - repeat first [apply Forall_nil_2 | apply Forall_cons_2];
      (split; [reflexivity|]);
      first [left; vm_compute; reflexivity
            | right; vm_compute; eexists; reflexivity].
  - vm_compute. lia.
Defined.

Example prompt_date_sample :
  prompt_date ["soon"; "2023-02-29"; "  2024-02-29 "; "x"] =
    Returned (Some "2024-02-29") ["x"] ∧
  prompt_date ["   "; "x"] = Returned None ["x"].
Proof. vm_compute. done. Qed.

(** ** Adding through the dialogue *)




Example cmd_add_sample :
  tasks (self (cmd_add "2024-05-05T09:00:00"
                 ["  Read Ch.2  "; ""; "someday"; "2024-06-01"; "7"; "2";
                  " pp. 30-45"; ""] fresh_world).1) =
  [(1, mkTask (Some 1) "Read Ch.2" "General" (Some "2024-06-01") 2
              "pp. 30-45" "2024-05-05T09:00:00" None)].
Proof. vm_compute. reflexivity. Qed.




(** ** Editing through the dialogue *)

Lemma alter_fixed {V} (f : V → V) (k : Z) (d : list (Z * V)) :
  (∀ v, Dict.get k d = Some v → f v = v) → Dict.alter f k d = d.
Proof.
  induction d as [|[k' v'] r IH]; csimpl; [done|].
  destruct (decide (k = k')) as [->|N]; intros H.
  - by rewrite H.
  - by rewrite IH.
Qed.

Lemma strip_or_blank dflt line : strip line = "" → strip_or dflt line = dflt.
Proof. intros E. unfold strip_or. by rewrite E. Qed.

Lemma edit_task_same task_id t w :
  get_task task_id (self w) = Some t →
  self (edit_task task_id
          [ kw_title (Some (title t)); kw_category (Some (category t));
            kw_due_date (due_date t); kw_priority (Some (priority t));
            kw_notes (Some (notes t)) ] w).1 = self w.
Proof.
  intros Hg. unfold edit_task. rewrite Hg.
  assert (∀ v, v = t →
            apply_kwargs [ kw_title (Some (title t)); kw_category (Some (category t));
                           kw_due_date (due_date t); kw_priority (Some (priority t));
                           kw_notes (Some (notes t)) ] v = v) as Hid.
  { intros v ->. by destruct t as [? ? ? [?|] ? ? ? ?]. }
  unfold get_task, Dict.mem in *.
  destruct (Dict.get task_id (tasks (self w))) as [t'|] eqn:E;
    cbn [fst self save].
  - rewrite alter_fixed; [by destruct (self w)|].
    intros v Hv. apply Hid. congruence.
  - rewrite alter_fixed; [by destruct (self w)|].
    intros v Hv. apply Hid. congruence.
Qed.

(** X23: when [cmd_edit] finds the task and every answer is blank, the
    planner is left exactly as it was (each blank answer stands for the
    value the task has), and the data file is written. *)
Theorem cmd_edit_blank_keeps id_line b1 b2 b3 b4 b5 rest task_id t w :
  py_int id_line = Ok task_id →
  get_task task_id (self w) = Some t →
  strip b1 = "" → strip b2 = "" → strip b3 = "" → strip b4 = "" →
  strip b5 = "" →
  let w' := (cmd_edit (id_line :: b1 :: b2 :: b3 :: b4 :: b5 :: rest) w).1 in
  self w' = self w ∧ data_file w' = Stored (dump (self w)).
Proof.
  intros Hid Hg E1 E2 E3 E4 E5. cbv zeta.
  unfold cmd_edit. cbn [input]. rewrite Hid, Hg.
  cbn [input cbind prompt_date]. rewrite E3. cbn [String.eqb cbind input].
  rewrite E4. cbn [String.eqb cbind input].
  rewrite !strip_or_blank by done.
  pose proof (edit_task_same task_id t w Hg) as Hs.
  unfold edit_task in *. rewrite Hg in *. cbn [fst snd] in *.
  split; [exact Hs|]. cbn [save data_file self] in *. by rewrite Hs.
Qed.

Lemma cmd_edit_blank_keeps_witness :
  self (cmd_edit ["1"; ""; " "; ""; ""; ""; ""] one_pending).1 = self one_pending.
Proof.
  apply (cmd_edit_blank_keeps "1" "" " " "" "" "" [""] 1
           (mkTask (Some 1) "Read Ch.1" "General" None 3 ""
                   "2024-05-01T09:00:00" None) one_pending);
    reflexivity.
Defined.

(** X24: when [cmd_edit] finds the task, the other answers being blank, it
    stores whatever integer the priority answer denotes, with no check of
    the range 1 to 5; and when that answer is no number the [ValueError]
    leaves [cmd_edit] before anything has been changed.  The numerals
    answered have at most 4300 digits, and [json.dump] can write the
    integers of the planner: the interpreter converts no longer ones. *)
Theorem cmd_edit_priority_unchecked id_line b1 b2 b3 p_line b5 rest task_id t w :
  (String.length id_line ≤ 4300)%nat →
  (String.length (strip p_line) ≤ 4300)%nat →
  ints_ok (self w) = true →
  py_int id_line = Ok task_id →
  get_task task_id (self w) = Some t →
  strip b1 = "" → strip b2 = "" → strip b3 = "" → strip b5 = "" →
  strip p_line ≠ "" →
  let r := cmd_edit (id_line :: b1 :: b2 :: b3 :: p_line :: b5 :: rest) w in
  (∀ z, py_int (strip p_line) = Ok z →
        get_task task_id (self r.1) = Some (set_priority z t)) ∧
  (∀ e, py_int (strip p_line) = Raises e → r = (w, Uncaught e)).
Proof.
  intros _ _ _ Hid Hg E1 E2 E3 E5 Np. cbv zeta.
  unfold cmd_edit. cbn [input]. rewrite Hid, Hg.
  cbn [input cbind prompt_date]. rewrite E3. cbn [String.eqb cbind input].
  destruct (String.eqb_spec (strip p_line) "") as [?|_]; [done|].
  unfold int_uncaught. split.
  - intros z ->. cbn [cbind input]. rewrite !strip_or_blank by done.
    pose proof (get_task_edit task_id
      [ kw_title (Some (title t)); kw_category (Some (category t));
        kw_due_date (due_date t); kw_priority (Some z);
        kw_notes (Some (notes t)) ] w) as He.
    destruct (edit_task _ _ w) as [w' b]. cbn [fst] in *.
    rewrite He, Hg. cbn. f_equal. by destruct t as [? ? ? [?|] ? ? ? ?].
  - intros e ->. done.
Qed.

Lemma cmd_edit_priority_unchecked_witness :
  priority <$> get_task 1
    (self (cmd_edit ["1"; ""; ""; ""; " 9"; ""; ""] one_pending).1) = Some 9.
Proof.
  assert (String.length "1" ≤ 4300)%nat as L1 by (vm_compute; lia).
  assert (String.length (strip " 9") ≤ 4300)%nat as L2 by (vm_compute; lia).
  assert (ints_ok (self one_pending) = true) as Hi by (vm_compute; reflexivity).
  pose proof (cmd_edit_priority_unchecked "1" "" "" "" " 9" "" [""] 1
           (mkTask (Some 1) "Read Ch.1" "General" None 3 ""
                   "2024-05-01T09:00:00" None) one_pending
           L1 L2 Hi eq_refl eq_refl eq_refl eq_refl eq_refl eq_refl) as H.
  destruct H as [H _].
  - intros E. vm_compute in E. discriminate E.
  - rewrite (H 9 eq_refl). reflexivity.
Defined.

Example cmd_edit_bad_priority :
  cmd_edit ["1"; "New title"; ""; ""; "high"; ""; ""] one_pending =
    (one_pending, Uncaught ValueError).
Proof. vm_compute. reflexivity. Qed.
